(** * A shallow embedding of the blog application [main.py]

    The Flask application keeps three tables ([users], [blog_posts],
    [comments]) behind SQLAlchemy, a flask-login session and the flash
    queue.  Every route handler of [main.py] is embedded as a computation
    in a small state-and-exception monad over that world; the decorators
    [login_required] and [admin_only] are higher-order functions on such
    computations.

    What lies outside [main.py] is taken as follows.
    - [forms.py] is not part of the sources: a handler receives
      [Some data] when [form.validate_on_submit()] is true (with the
      validated field data) and [None] otherwise (a GET, or a POST that
      does not validate).
    - Templates are opaque: [render_template] is a constructor recording
      the template name and the context it was given.
    - werkzeug's password hashing is an interface ([Werkzeug]).
    - The storage engine assigns integer primary keys as SQLite does for
      an [INTEGER PRIMARY KEY]: one more than the largest key present.
      The tables start empty ([db.create_all()] on a fresh database).
    - A request is one transaction: what a handler changed in memory
      before an uncaught exception is never committed.
    - Text is ASCII: [str.title] acts on the letters [A-Z] and [a-z];
      what is stated of names is stated of names for which
      [str.isascii] holds. *)

From Stdlib Require Import Ascii String DecimalString.
From stdpp Require Import base option list strings gmap.

Open Scope string_scope.

(** ** The data model (lines 80-132) *)

Module User.
Record t := mk {
  id : nat;            (* db.Integer, primary_key *)
  email : string;      (* unique, nullable=False *)
  password : string;   (* nullable=False *)
  name : string        (* nullable=False *)
}.
End User.

Module BlogPost.
Record t := mk {
  id : nat;                  (* primary key *)
  author_id : option nat;    (* ForeignKey users.id, nullable *)
  title : string;            (* unique, nullable=False *)
  subtitle : string;
  date : string;
  body : string;
  img_url : string
}.
(* attribute assignment on a loaded post *)
Definition set_title (p : t) (v : string) : t :=
  mk (id p) (author_id p) v (subtitle p) (date p) (body p) (img_url p).
Definition set_subtitle (p : t) (v : string) : t :=
  mk (id p) (author_id p) (title p) v (date p) (body p) (img_url p).
Definition set_img_url (p : t) (v : string) : t :=
  mk (id p) (author_id p) (title p) (subtitle p) (date p) (body p) v.
Definition set_body (p : t) (v : string) : t :=
  mk (id p) (author_id p) (title p) (subtitle p) (date p) v (img_url p).
Definition set_author_id (p : t) (v : option nat) : t :=
  mk (id p) v (title p) (subtitle p) (date p) (body p) (img_url p).
End BlogPost.

Module Comment.
Record t := mk {
  id : nat;                  (* primary key *)
  author_id : option nat;    (* ForeignKey users.id, nullable *)
  post_id : option nat;      (* ForeignKey blog_posts.id, nullable *)
  text : string              (* nullable=False *)
}.
End Comment.

(** The three tables, rows in insertion order. *)
Record Db := mkDb {
  users : list User.t;
  blog_posts : list BlogPost.t;
  comments : list Comment.t
}.

(** The world a request runs in: the committed database, the user id
    flask-login keeps in the signed session, and the flashed messages. *)
Record World := mkWorld {
  db : Db;
  session_user_id : option nat;
  flashes : list string
}.

Definition empty_db : Db := mkDb [] [] [].
Definition initial_world : World := mkWorld empty_db None [].

(** ** Exceptions, responses and the handler monad *)

Inductive Exn :=
| HTTPException (code : nat)     (* raised by [abort(code)] *)
| IntegrityError                 (* sqlalchemy.exc.IntegrityError *)
| UnmappedInstanceError          (* sqlalchemy.orm.exc.UnmappedInstanceError *)
| AttributeError.                (* Python's AttributeError *)

Inductive Endpoint :=
| to_get_all_posts
| to_show_post (post_id : nat).

Record CreatePostForm := mkCreatePostForm {
  form_title : string;
  form_subtitle : string;
  form_img_url : string;
  form_body : string
}.

Inductive Context :=
| index_html (all_posts : list BlogPost.t)
| register_html
| login_html
| post_html (post : option BlogPost.t) (date : string)
| about_html
| contact_html
| make_post_html (prefilled : option CreatePostForm) (is_edit : bool).

Inductive Response :=
| render_template (page : Context)
| redirect (target : Endpoint).

Definition M (A : Type) : Type := World → (Exn + A) * World.

Definition ret {A} (a : A) : M A := λ w, (inr a, w).
Definition raise {A} (e : Exn) : M A := λ w, (inl e, w).
Definition bind {A B} (m : M A) (k : A → M B) : M B :=
  λ w, match m w with
       | (inr a, w') => k a w'
       | (inl e, w') => (inl e, w')
       end.

Notation "'let*' x ':=' m 'in' k" := (bind m (λ x, k))
  (at level 10, x name, m at level 100, k at level 200).
Notation "m ';;' k" := (bind m (λ _, k))
  (at level 100, k at level 200, right associativity).

(** What the client gets back: Flask turns an [HTTPException] into a
    response with that status, any other uncaught exception into a
    500 Internal Server Error. *)
Inductive Reply :=
| Served (r : Response)
| Failed (status : nat) (cause : Exn).

Definition serve (h : M Response) (w : World) : Reply * World :=
  match h w with
  | (inr r, w') => (Served r, w')
  | (inl (HTTPException c), w') => (Failed c (HTTPException c), w')
  | (inl e, w') => (Failed 500 e, w')
  end.

(** ** Flask, flask-login *)

Definition abort {A} (code : nat) : M A := raise (HTTPException code).

Definition flash (message : string) : M unit :=
  λ w, (inr (), mkWorld (db w) (session_user_id w) (flashes w ++ [message])).

Definition get_db : M Db := λ w, (inr (db w), w).

Definition put_db (d : Db) : M unit :=
  λ w, (inr (), mkWorld d (session_user_id w) (flashes w)).

(** ** Queries *)

Definition User_query_get (d : Db) (i : nat) : option User.t :=
  find (λ u, bool_decide (User.id u = i)) (users d).

Definition User_query_filter_by_email_first (d : Db) (e : string)
  : option User.t :=
  find (λ u, bool_decide (User.email u = e)) (users d).

Definition BlogPost_query_get (d : Db) (i : nat) : option BlogPost.t :=
  find (λ p, bool_decide (BlogPost.id p = i)) (blog_posts d).

Definition BlogPost_query_all (d : Db) : list BlogPost.t := blog_posts d.

(** Lines 64-66: the user loader, and the [current_user] proxy built on
    it: [None] stands for flask-login's anonymous user. *)
Definition load_user (d : Db) (user_id : nat) : option User.t :=
  User_query_get d user_id.

Definition current_user : M (option User.t) :=
  λ w, (inr (session_user_id w ≫= load_user (db w)), w).

Definition login_user (u : User.t) : M unit :=
  λ w, (inr (), mkWorld (db w) (Some (User.id u)) (flashes w)).

Definition logout_user : M unit :=
  λ w, (inr (), mkWorld (db w) None (flashes w)).

(** [login_required]: an unauthenticated request is answered by
    [login_manager.unauthorized()], which aborts with 401 since no
    [login_view] is configured (OPTIONS requests and the LOGIN_DISABLED
    switch are left out). *)
Definition login_required {A} (f : M A) : M A :=
  let* u := current_user in
  match u with
  | None => abort 401
  | Some _ => f
  end.

(** Lines 70-77.  [current_user.id] on the anonymous user is an
    AttributeError. *)
Definition admin_only {A} (f : M A) : M A :=
  let* u := current_user in
  match u with
  | None => raise AttributeError
  | Some u =>
      if bool_decide (User.id u ≠ 1) then abort 403
      else f
  end.

(** ** Python strings: [str.title] *)

Definition is_upper (c : ascii) : bool :=
  (65 <=? nat_of_ascii c)%nat && (nat_of_ascii c <=? 90)%nat.

Definition is_lower (c : ascii) : bool :=
  (97 <=? nat_of_ascii c)%nat && (nat_of_ascii c <=? 122)%nat.

Definition is_cased (c : ascii) : bool := is_upper c || is_lower c.

Definition to_upper (c : ascii) : ascii :=
  if is_lower c then ascii_of_nat (nat_of_ascii c - 32) else c.

Definition to_lower (c : ascii) : ascii :=
  if is_upper c then ascii_of_nat (nat_of_ascii c + 32) else c.

(** [str.title] on ASCII text: a letter that follows a cased character is
    lower-cased, any other letter is upper-cased.  For text with other
    characters Python consults the Unicode tables; this function is the
    method only where [str.isascii] holds. *)
Fixpoint title_from (previous_is_cased : bool) (s : string) : string :=
  match s with
  | EmptyString => EmptyString
  | String c rest =>
      String (if previous_is_cased then to_lower c else to_upper c)
             (title_from (is_cased c) rest)
  end.

Definition title (s : string) : string := title_from false s.

(** ** [date.today().strftime("%B %d, %Y")] *)

Inductive Month :=
| January | February | March | April | May | June
| July | August | September | October | November | December.

Record Date := mkDate { year : nat; month : Month; day : nat }.

Definition month_name (m : Month) : string :=
  match m with
  | January => "January" | February => "February" | March => "March"
  | April => "April" | May => "May" | June => "June"
  | July => "July" | August => "August" | September => "September"
  | October => "October" | November => "November" | December => "December"
  end.

Definition decimal (n : nat) : string := NilZero.string_of_uint (Nat.to_uint n).

Definition two_digits (n : nat) : string :=
  if (n <? 10)%nat then "0" ++ decimal n else decimal n.

Definition strftime (d : Date) : string :=
  month_name (month d) ++ " " ++ two_digits (day d) ++ ", " ++ decimal (year d).

(** ** werkzeug.security *)

Class Werkzeug := {
  (* the salt is drawn at random by the library: it is an input here *)
  generate_password_hash : string → string → string;
  check_password_hash : string → string → bool
}.

(** ** Writes through [db.session] *)

(** The key the engine gives the next row of a table. *)
Definition next_id (ids : list nat) : nat := S (foldr Nat.max 0 ids).

(** A value assigned to a relationship attribute.  [current_user] is
    either a [User] or flask-login's anonymous user. *)
Inductive PyObj :=
| PyStr (s : string)
| PyUser (u : User.t)
| PyAnonymous.

Definition proxy (u : option User.t) : PyObj :=
  match u with
  | Some u => PyUser u
  | None => PyAnonymous
  end.

(** Setting a [relationship("User", ...)] attribute ([BlogPost.author],
    [Comment.comment_author]): a mapped [User] gives the foreign key; an
    object that is not a mapped instance has no [_sa_instance_state], and
    the assignment raises AttributeError. *)
Definition relationship_User_set (v : PyObj) : M (option nat) :=
  match v with
  | PyUser u => ret (Some (User.id u))
  | PyStr _ => raise AttributeError
  | PyAnonymous => raise AttributeError
  end.

(** [current_user.name] *)
Definition getattr_name (u : option User.t) : M string :=
  match u with
  | Some u => ret (User.name u)
  | None => raise AttributeError
  end.

(** [db.session.add(User(email=, password=, name=)); db.session.commit()]:
    the unique constraint on [email] makes the commit raise
    IntegrityError, and nothing is stored. *)
Definition db_session_add_commit_User (email password name : string)
  : M User.t :=
  let* d := get_db in
  if bool_decide (email ∈ User.email <$> users d) then raise IntegrityError
  else
    let new_user := User.mk (next_id (User.id <$> users d)) email password name in
    put_db (mkDb (users d ++ [new_user]) (blog_posts d) (comments d)) ;;
    ret new_user.

(** [db.session.add(BlogPost(...)); db.session.commit()], [title] being
    unique. *)
Definition db_session_add_commit_BlogPost
    (author_id : option nat) (title subtitle body img_url date : string)
  : M BlogPost.t :=
  let* d := get_db in
  if bool_decide (title ∈ BlogPost.title <$> blog_posts d)
  then raise IntegrityError
  else
    let new_post :=
      BlogPost.mk (next_id (BlogPost.id <$> blog_posts d))
                  author_id title subtitle date body img_url in
    put_db (mkDb (users d) (blog_posts d ++ [new_post]) (comments d)) ;;
    ret new_post.

(** [db.session.add(Comment(...)); db.session.commit()] *)
Definition db_session_add_commit_Comment
    (text : string) (author_id post_id : option nat) : M Comment.t :=
  let* d := get_db in
  let new_comment :=
    Comment.mk (next_id (Comment.id <$> comments d)) author_id post_id text in
  put_db (mkDb (users d) (blog_posts d) (comments d ++ [new_comment])) ;;
  ret new_comment.

(** [db.session.commit()] with the loaded [post] modified: the row of
    that id is rewritten, unless another row has the new title. *)
Definition db_session_commit_BlogPost (post : BlogPost.t) : M unit :=
  let* d := get_db in
  let others :=
    filter (λ p, BlogPost.id p ≠ BlogPost.id post) (blog_posts d) in
  if bool_decide (BlogPost.title post ∈ BlogPost.title <$> others)
  then raise IntegrityError
  else
    put_db (mkDb (users d)
                 ((λ p, if bool_decide (BlogPost.id p = BlogPost.id post)
                        then post else p) <$> blog_posts d)
                 (comments d)).

(** [db.session.delete(x)] raises UnmappedInstanceError when [x] is
    [None]. *)
Definition db_session_delete (x : option BlogPost.t) : M BlogPost.t :=
  match x with
  | Some p => ret p
  | None => raise UnmappedInstanceError
  end.

(** [db.session.commit()] with [p] marked deleted: the row goes, and the
    comments of the post, whose relationship has no delete cascade, get a
    NULL [post_id]. *)
Definition orphan (pid : nat) (c : Comment.t) : Comment.t :=
  if bool_decide (Comment.post_id c = Some pid)
  then Comment.mk (Comment.id c) (Comment.author_id c) None (Comment.text c)
  else c.

Definition db_session_commit_delete (p : BlogPost.t) : M unit :=
  let* d := get_db in
  put_db (mkDb (users d)
               (filter (λ q, BlogPost.id q ≠ BlogPost.id p) (blog_posts d))
               (orphan (BlogPost.id p) <$> comments d)).

(** ** Start-up (lines 28-60 and 135-136) *)

Record Config := mkConfig {
  SQLALCHEMY_DATABASE_URI : string;
  SQLALCHEMY_TRACK_MODIFICATIONS : bool;
  SECRET_KEY : option string;          (* [None] is Python's None *)
  CKEDITOR_PKG_TYPE : string
}.

(** [os.environ.get(key)] and [os.environ.get(key, fallback)] *)
Definition environ_get (environ : gmap string string) (key : string)
  : option string := environ !! key.

Definition environ_get_default (environ : gmap string string)
    (key fallback : string) : string := default fallback (environ !! key).

(** What [db.create_all()] may raise while it builds the engine for the
    configured URI and creates the tables. *)
Inductive EngineError :=
| ArgumentError        (* sqlalchemy.exc.ArgumentError: the URI does not parse *)
| NoSuchModuleError    (* sqlalchemy.exc.NoSuchModuleError: no dialect for it *)
| OperationalError.    (* sqlalchemy.exc.OperationalError: no database there *)

(** What the import of main.py leaves to the machine it runs on: whether
    the path tested on line 135 is a file, and how [db.create_all()] on
    line 136 ends for a given database URI. *)
Class Host := {
  isfile : string → bool;
  create_all : string → option EngineError
}.

(** Running the module top level: either the configured application or
    the exception that stopped the import.  Lines 35-46 fill the
    configuration; lines 135-136 create the tables unless the path
    ['sqlite:///blog.db'] is a file.  The other top-level statements (the
    extensions set up on lines 28-60, with Flask-SQLAlchemy opening no
    engine before its first use, and the class definitions) raise in no
    environment. *)
Definition startup `{Host} (environ : gmap string string)
  : EngineError + Config :=
  let uri := environ_get_default environ "DATABASE_URL" "sqlite:///blog.db" in
  let secret := environ_get environ "SECRET_KEY" in
  let config := mkConfig uri false secret "standard-all" in
  if isfile "sqlite:///blog.db" then inr config
  else match create_all uri with
       | Some e => inl e
       | None => inr config
       end.

(** ** The route handlers *)

Record RegisterForm := mkRegisterForm {
  register_email : string;
  register_password : string;
  register_name : string
}.

Record LoginForm := mkLoginForm {
  login_email : string;
  login_password : string
}.

Record CommentForm := mkCommentForm { comment_text : string }.

Definition msg_invalid_password : string := "Invalid Password! Please try again.".
Definition msg_no_user : string := "No user found! Please try again.".
Definition msg_login_to_comment : string :=
  "You need to login or register to comment.".

Section Handlers.
Context `{Werkzeug}.

(** Lines 139-142 *)
Definition get_all_posts : M Response :=
  let* d := get_db in
  let posts := BlogPost_query_all d in
  ret (render_template (index_html posts)).

(** Lines 145-165 *)
Definition register (form : option RegisterForm) (salt : string)
  : M Response :=
  match form with
  | Some form =>
      let hash_and_salted_password :=
        generate_password_hash (register_password form) salt in
      let* new_user :=
        db_session_add_commit_User (register_email form)
                                   hash_and_salted_password
                                   (title (register_name form)) in
      login_user new_user ;;
      ret (redirect to_get_all_posts)
  | None => ret (render_template register_html)
  end.

(** Lines 168-183 *)
Definition login (form : option LoginForm) : M Response :=
  match form with
  | Some form =>
      let* d := get_db in
      let user := User_query_filter_by_email_first d (login_email form) in
      match user with
      | Some user =>
          if check_password_hash (User.password user) (login_password form)
          then login_user user ;; ret (redirect to_get_all_posts)
          else flash msg_invalid_password ;;
               ret (render_template login_html)
      | None =>
          flash msg_no_user ;;
          ret (render_template login_html)
      end
  | None => ret (render_template login_html)
  end.

(** Lines 186-189 *)
Definition logout : M Response :=
  logout_user ;;
  ret (redirect to_get_all_posts).

(** Lines 192-209 *)
Definition show_post (post_id : nat) (form : option CommentForm)
    (today : Date) : M Response :=
  let* d := get_db in
  let requested_post := BlogPost_query_get d post_id in
  match form with
  | Some comment_form =>
      let* user := current_user in
      match user with
      | Some _ =>                       (* current_user.is_authenticated *)
          let* comment_author := relationship_User_set (proxy user) in
          let parent_post := BlogPost.id <$> requested_post in
          db_session_add_commit_Comment (comment_text comment_form)
                                        comment_author parent_post ;;
          ret ()
      | None => flash msg_login_to_comment
      end
  | None => ret ()
  end ;;
  ret (render_template (post_html requested_post (strftime today))).

(** Lines 212-219 *)
Definition about : M Response := ret (render_template about_html).
Definition contact : M Response := ret (render_template contact_html).

(** Lines 225-239, the function under the decorators *)
Definition add_new_post_body (form : option CreatePostForm) (today : Date)
  : M Response :=
  match form with
  | Some form =>
      let* user := current_user in
      let* author := relationship_User_set (proxy user) in
      db_session_add_commit_BlogPost author (form_title form)
        (form_subtitle form) (form_body form) (form_img_url form)
        (strftime today) ;;
      ret (redirect to_get_all_posts)
  | None => ret (render_template (make_post_html None false))
  end.

(** Lines 222-225 *)
Definition add_new_post (form : option CreatePostForm) (today : Date)
  : M Response :=
  login_required (admin_only (add_new_post_body form today)).

(** Lines 245-263, the function under the decorators.  [post.title] on
    [None] (line 248) is an AttributeError; line 258 assigns a [str] to
    the relationship attribute [author]. *)
Definition edit_post_body (post_id : nat) (form : option CreatePostForm)
  : M Response :=
  let* d := get_db in
  match BlogPost_query_get d post_id with
  | None => raise AttributeError
  | Some post =>
      let edit_form :=
        mkCreatePostForm (BlogPost.title post) (BlogPost.subtitle post)
                         (BlogPost.img_url post) (BlogPost.body post) in
      match form with
      | Some form =>
          let post := BlogPost.set_title post (form_title form) in
          let post := BlogPost.set_subtitle post (form_subtitle form) in
          let post := BlogPost.set_img_url post (form_img_url form) in
          let* user := current_user in
          let* editor_name := getattr_name user in
          let* author := relationship_User_set (PyStr editor_name) in
          let post := BlogPost.set_author_id post author in
          let post := BlogPost.set_body post (form_body form) in
          db_session_commit_BlogPost post ;;
          ret (redirect (to_show_post (BlogPost.id post)))
      | None => ret (render_template (make_post_html (Some edit_form) true))
      end
  end.

(** Lines 242-245 *)
Definition edit_post (post_id : nat) (form : option CreatePostForm)
  : M Response :=
  login_required (admin_only (edit_post_body post_id form)).

(** Lines 269-273, the function under the decorators *)
Definition delete_post_body (post_id : nat) : M Response :=
  let* d := get_db in
  let post_to_delete := BlogPost_query_get d post_id in
  let* deleted := db_session_delete post_to_delete in
  db_session_commit_delete deleted ;;
  ret (redirect to_get_all_posts).

(** Lines 266-269 *)
Definition delete_post (post_id : nat) : M Response :=
  login_required (admin_only (delete_post_body post_id)).

(** ** Requests and runs of the application *)

Inductive Request :=
| GetAllPosts
| Register (form : option RegisterForm) (salt : string)
| Login (form : option LoginForm)
| Logout
| ShowPost (post_id : nat) (form : option CommentForm) (today : Date)
| About
| Contact
| AddNewPost (form : option CreatePostForm) (today : Date)
| EditPost (post_id : nat) (form : option CreatePostForm)
| DeletePost (post_id : nat).

Definition route (r : Request) : M Response :=
  match r with
  | GetAllPosts => get_all_posts
  | Register form salt => register form salt
  | Login form => login form
  | Logout => logout
  | ShowPost post_id form today => show_post post_id form today
  | About => about
  | Contact => contact
  | AddNewPost form today => add_new_post form today
  | EditPost post_id form => edit_post post_id form
  | DeletePost post_id => delete_post post_id
  end.

(** The world after a sequence of requests, oldest first. *)
Definition run (rs : list Request) (w : World) : World :=
  foldl (λ w r, (serve (route r) w).2) w rs.

Definition reachable (w : World) : Prop :=
  ∃ rs, run rs initial_world = w.

End Handlers.

(** ** A stand-in for werkzeug, to run the handlers on concrete requests *)

Definition ends_with (suffix s : string) : bool :=
  String.eqb (substring (String.length s - String.length suffix)
                        (String.length suffix) s) suffix.

Definition toy_werkzeug : Werkzeug := {|
  generate_password_hash password salt :=
    "pbkdf2:sha256$" ++ salt ++ "$" ++ password;
  check_password_hash pwhash password := ends_with ("$" ++ password) pwhash
|}.

(** A stand-in host: no file at the path of line 135, and the tables are
    created for an SQLite file URI and for nothing else. *)
Definition sqlite_host : Host := {|
  isfile _ := false;
  create_all uri :=
    if String.prefix "sqlite:///" uri then None else Some ArgumentError
|}.

Definition nov3 : Date := mkDate 2026 November 3.
Definition alice : RegisterForm :=
  mkRegisterForm "alice@example.com" "wonderland" "alice liddell".
Definition bob : RegisterForm :=
  mkRegisterForm "bob@example.com" "builder" "bOB the builder".
Definition hello : CreatePostForm :=
  mkCreatePostForm "Hello" "first post" "http://img/1.png" "<p>hi</p>".

Definition hello_again : CreatePostForm :=
  mkCreatePostForm "Hello" "second post" "http://img/2.png" "<p>again</p>".

(** Alice registers first, then Bob, who stays logged in. *)
Definition two_users : World :=
  @run toy_werkzeug
       [Register (Some alice) "s1"; Register (Some bob) "s2"] initial_world.

(** Alice, the first user, registers and publishes one post. *)
Definition one_post : World :=
  @run toy_werkzeug
       [Register (Some alice) "s1"; AddNewPost (Some hello) nov3] initial_world.

Definition alice_user : User.t :=
  User.mk 1 "alice@example.com" "pbkdf2:sha256$s1$wonderland" "Alice Liddell".

Definition bob_user : User.t :=
  User.mk 2 "bob@example.com" "pbkdf2:sha256$s2$builder" "Bob The Builder".

Definition hello_post : BlogPost.t :=
  BlogPost.mk 1 (Some 1) "Hello" "first post" "November 03, 2026"
              "<p>hi</p>" "http://img/1.png".

(** Alice registers and logs out. *)
Definition logged_out : World :=
  @run toy_werkzeug [Register (Some alice) "s1"; Logout] initial_world.

Definition alice_again : RegisterForm :=
  mkRegisterForm "alice@example.com" "looking-glass" "alice again".

Definition edited : CreatePostForm :=
  mkCreatePostForm "Hello, world" "edited" "http://img/3.png" "<p>new</p>".

(** Alice alone, just registered. *)
Definition registered : World :=
  @run toy_werkzeug [Register (Some alice) "s1"] initial_world.

(** Alice publishes a post and comments on it. *)
Definition commented : World :=
  @run toy_werkzeug
       [Register (Some alice) "s1"; AddNewPost (Some hello) nov3;
        ShowPost 1 (Some (mkCommentForm "nice")) nov3] initial_world.

Definition nice_comment : Comment.t := Comment.mk 1 (Some 1) (Some 1) "nice".

(** ** Who is asking *)

Definition authenticated_as (w : World) (u : User.t) : Prop :=
  session_user_id w ≫= load_user (db w) = Some u.

Definition anonymous (w : World) : Prop :=
  session_user_id w ≫= load_user (db w) = None.









(** What holds of the store in every world the application can reach:
    user ids count up from 1 in order of registration, and every comment
    points to a stored author. *)
Definition has_stored_author (d : Db) (c : Comment.t) : Prop :=
  ∃ u, u ∈ users d ∧ Comment.author_id c = Some (User.id u).

Definition has_stored_post (d : Db) (c : Comment.t) : Prop :=
  ∃ p, p ∈ blog_posts d ∧ Comment.post_id c = Some (BlogPost.id p).

Definition store_invariant (d : Db) : Prop :=
  User.id <$> users d = seq 1 (length (users d))
  ∧ Forall (has_stored_author d) (comments d).

(** ** How one request may change the world *)

(** What a request may do to the session binding: keep it, clear it, or
    bind it to a stored user. *)
Inductive session_change (w : World) : option nat → Prop :=
| session_kept : session_change w (session_user_id w)
| session_cleared : session_change w None
| session_bound u : u ∈ users (db w) → session_change w (Some (User.id u)).

(** The five shapes of a step: nothing stored; a user registered; a
    comment appended by the current user; a post appended by the current
    user, whose id is 1; a stored post deleted by that user. *)
Inductive transition (w : World) : World → Prop :=
| tr_read s f :
    session_change w s → transition w (mkWorld (db w) s f)
| tr_register u :
    User.email u ∉ User.email <$> users (db w) →
    User.id u = next_id (User.id <$> users (db w)) →
    title (User.name u) = User.name u →
    transition w (mkWorld (mkDb (users (db w) ++ [u]) (blog_posts (db w))
                                (comments (db w)))
                          (Some (User.id u)) (flashes w))
| tr_comment u c :
    authenticated_as w u →
    Comment.id c = next_id (Comment.id <$> comments (db w)) →
    Comment.author_id c = Some (User.id u) →
    (∀ i, Comment.post_id c = Some i →
          ∃ p, p ∈ blog_posts (db w) ∧ BlogPost.id p = i) →
    transition w (mkWorld (mkDb (users (db w)) (blog_posts (db w))
                                (comments (db w) ++ [c]))
                          (session_user_id w) (flashes w))
| tr_add_post u p :
    authenticated_as w u → User.id u = 1 →
    BlogPost.id p = next_id (BlogPost.id <$> blog_posts (db w)) →
    BlogPost.title p ∉ BlogPost.title <$> blog_posts (db w) →
    BlogPost.author_id p = Some 1 →
    transition w (mkWorld (mkDb (users (db w)) (blog_posts (db w) ++ [p])
                                (comments (db w)))
                          (session_user_id w) (flashes w))
| tr_delete_post u p :
    authenticated_as w u → User.id u = 1 →
    p ∈ blog_posts (db w) →
    transition w (mkWorld (mkDb (users (db w))
                                (filter (λ q, BlogPost.id q ≠ BlogPost.id p)
                                        (blog_posts (db w)))
                                (orphan (BlogPost.id p) <$> comments (db w)))
                          (session_user_id w) (flashes w)).

(** ** What holds in every reachable world *)

(** Primary keys, emails and titles identify their rows. *)
Definition unique_keys (d : Db) : Prop :=
  NoDup (User.id <$> users d)
  ∧ NoDup (User.email <$> users d)
  ∧ NoDup (BlogPost.id <$> blog_posts d)
  ∧ NoDup (BlogPost.title <$> blog_posts d)
  ∧ NoDup (Comment.id <$> comments d).

(** Every post is authored by user 1, and that user is stored. *)
Definition posts_by_admin (d : Db) : Prop :=
  Forall (λ p, BlogPost.author_id p = Some 1
               ∧ ∃ u, u ∈ users d ∧ User.id u = 1) (blog_posts d).

(** Every stored name is its own title-cased form. *)
Definition names_title_cased (d : Db) : Prop :=
  Forall (λ u, title (User.name u) = User.name u) (users d).

(** A comment's parent link is empty or names a stored post. *)
Definition comments_linked (d : Db) : Prop :=
  Forall (λ c, ∀ i, Comment.post_id c = Some i →
                    ∃ p, p ∈ blog_posts d ∧ BlogPost.id p = i) (comments d).

(** The session, when bound, is bound to a stored user. *)
Definition session_valid (w : World) : Prop :=
  ∀ i, session_user_id w = Some i → ∃ u, authenticated_as w u ∧ User.id u = i.

Definition world_invariant (w : World) : Prop :=
  User.id <$> users (db w) = seq 1 (length (users (db w)))
  ∧ unique_keys (db w)
  ∧ posts_by_admin (db w)
  ∧ names_title_cased (db w)
  ∧ comments_linked (db w)
  ∧ session_valid w.

(** ** Properties *)

Ltac unfold_monad :=
  unfold serve, abort, flash, get_db, put_db, current_user, login_user,
    logout_user, bind, ret, raise in *.

Section Properties.
Context `{Werkzeug}.

Lemma login_required_authenticated {A} (f : M A) w u :
  authenticated_as w u → login_required f w = f w.
Proof.
  unfold authenticated_as, login_required. unfold_monad. by intros ->.
Qed.

Lemma login_required_anonymous {A} (f : M A) w :
  anonymous w → login_required f w = (inl (HTTPException 401), w).
Proof.
  unfold anonymous, login_required. unfold_monad. by intros ->.
Qed.

Lemma admin_only_admin {A} (f : M A) w u :
  authenticated_as w u → User.id u = 1 → admin_only f w = f w.
Proof.
  unfold authenticated_as, admin_only. unfold_monad. intros -> ->.
  by rewrite bool_decide_false by auto.
Qed.

Lemma admin_only_other {A} (f : M A) w u :
  authenticated_as w u → User.id u ≠ 1 →
  admin_only f w = (inl (HTTPException 403), w).
Proof.
  unfold authenticated_as, admin_only. unfold_monad. intros -> ?.
  by rewrite bool_decide_true.
Qed.

(** C4: a validated login submission whose email belongs to a user but
    whose password fails hash verification flashes the invalid-password
    message and renders the login form again, the session binding
    untouched; one whose email belongs to nobody does the same with the
    no-user message; the two messages differ. *)
Theorem login_failure_messages (w : World) (form : LoginForm) :
  (∀ user,
      User_query_filter_by_email_first (db w) (login_email form) = Some user →
      check_password_hash (User.password user) (login_password form) = false →
      serve (login (Some form)) w
      = (Served (render_template login_html),
         mkWorld (db w) (session_user_id w)
                 (flashes w ++ [msg_invalid_password])))
  ∧ (User_query_filter_by_email_first (db w) (login_email form) = None →
     serve (login (Some form)) w
     = (Served (render_template login_html),
        mkWorld (db w) (session_user_id w) (flashes w ++ [msg_no_user])))
  ∧ msg_invalid_password ≠ msg_no_user.
Proof.
  split_and!.
  - intros user Hfound Hcheck. unfold login. unfold_monad.
    by rewrite Hfound, Hcheck.
  - intros Hnone. unfold login. unfold_monad. by rewrite Hnone.
  - discriminate.
Qed.

Lemma User_query_get_Some d i u :
  User_query_get d i = Some u → u ∈ users d ∧ User.id u = i.
Proof.
  unfold User_query_get. intros Hfind. apply find_some in Hfind as [Hin Hid].
  split; [by apply list_elem_of_In | by apply bool_decide_eq_true in Hid].
Qed.

Lemma BlogPost_query_get_Some d i p :
  BlogPost_query_get d i = Some p → p ∈ blog_posts d ∧ BlogPost.id p = i.
Proof.
  unfold BlogPost_query_get. intros Hfind.
  apply find_some in Hfind as [Hin Hid].
  split; [by apply list_elem_of_In | by apply bool_decide_eq_true in Hid].
Qed.

Lemma authenticated_as_stored w u : authenticated_as w u → u ∈ users (db w).
Proof.
  unfold authenticated_as, load_user. destruct (session_user_id w); [|done].
  simpl. intros Hget. by apply User_query_get_Some in Hget as [? _].
Qed.

(** C2, as the code has it: registering an email that a stored user
    already has stores nothing and leaves session and flashes alone; the
    commit's IntegrityError is not caught and the request ends in a 500
    error. *)
Theorem register_duplicate_email (w : World) (u : User.t)
    (form : RegisterForm) (salt : string) :
  u ∈ users (db w) → User.email u = register_email form →
  serve (register (Some form) salt) w = (Failed 500 IntegrityError, w).
Proof.
  intros Hin Hemail. unfold register, db_session_add_commit_User.
  unfold_monad. rewrite bool_decide_true; [done|].
  rewrite <- Hemail. by apply list_elem_of_fmap_2.
Qed.

(** C3, as the code has it: for a post id that names no stored post, the
    admin's delete request ends in a 500 error (UnmappedInstanceError
    from [db.session.delete(None)]) with the world unchanged, and the
    list-posts view served afterwards succeeds with the same posts. *)
Theorem delete_missing_post (w : World) (u : User.t) (post_id : nat) :
  authenticated_as w u → User.id u = 1 →
  BlogPost_query_get (db w) post_id = None →
  serve (delete_post post_id) w = (Failed 500 UnmappedInstanceError, w)
  ∧ serve get_all_posts (serve (delete_post post_id) w).2
    = (Served (render_template (index_html (blog_posts (db w)))), w).
Proof.
  intros Hauth Hadmin Hnone.
  assert (serve (delete_post post_id) w
          = (Failed 500 UnmappedInstanceError, w)) as Hdel.
  { unfold delete_post, serve.
    rewrite (login_required_authenticated _ _ _ Hauth).
    rewrite (admin_only_admin _ _ _ Hauth Hadmin).
    unfold delete_post_body, db_session_delete. unfold_monad.
    by rewrite Hnone. }
  split; [done|]. by rewrite Hdel.
Qed.

(** C5: a validated comment submission on the detail view of a post.
    From an anonymous session nothing is stored: the message is flashed
    and the page rendered.  From an authenticated session exactly one
    comment row is appended, its author the current user, its parent
    the post looked up for the view (the post of the requested id when
    there is one). *)
Theorem comment_submission (w : World) (post_id : nat) (form : CommentForm)
    (today : Date) :
  let requested_post := BlogPost_query_get (db w) post_id in
  let page :=
    Served (render_template (post_html requested_post (strftime today))) in
  (anonymous w →
   serve (show_post post_id (Some form) today) w
   = (page, mkWorld (db w) (session_user_id w)
                    (flashes w ++ [msg_login_to_comment])))
  ∧ (∀ u, authenticated_as w u →
       let new_comment :=
         Comment.mk (next_id (Comment.id <$> comments (db w)))
                    (Some (User.id u)) (BlogPost.id <$> requested_post)
                    (comment_text form) in
       serve (show_post post_id (Some form) today) w
       = (page, mkWorld (mkDb (users (db w)) (blog_posts (db w))
                              (comments (db w) ++ [new_comment]))
                        (session_user_id w) (flashes w))
       ∧ u ∈ users (db w)
       ∧ (∀ p, requested_post = Some p →
            p ∈ blog_posts (db w)
            ∧ Comment.post_id new_comment = Some post_id)).
Proof.
  simpl. split.
  - unfold anonymous, show_post. unfold_monad. by intros ->.
  - intros u Hauth. split_and!.
    + unfold show_post, db_session_add_commit_Comment, relationship_User_set.
      unfold_monad. unfold authenticated_as in Hauth. by rewrite Hauth.
    + by apply authenticated_as_stored.
    + intros p Hp. apply BlogPost_query_get_Some in Hp as Hp'.
      destruct Hp' as [Hin Hid]. by rewrite Hp, <- Hid.
Qed.

(** Line 258 always raises: a validated edit of a stored post by the
    admin ends in a 500 error and nothing is written. *)
Lemma edit_post_valid_submission w u p post_id form :
  authenticated_as w u → User.id u = 1 →
  BlogPost_query_get (db w) post_id = Some p →
  serve (edit_post post_id (Some form)) w = (Failed 500 AttributeError, w).
Proof.
  intros Hauth Hadmin Hpost. unfold edit_post, serve.
  rewrite (login_required_authenticated _ _ _ Hauth).
  rewrite (admin_only_admin _ _ _ Hauth Hadmin).
  unfold edit_post_body, getattr_name, relationship_User_set. unfold_monad.
  rewrite Hpost. unfold authenticated_as in Hauth. by rewrite Hauth.
Qed.

(** *** Title-casing *)


Lemma is_cased_to_lower c : is_cased (to_lower c) = is_cased c.
Proof. by destruct c as [[] [] [] [] [] [] [] []]. Qed.

Lemma to_lower_to_lower c : to_lower (to_lower c) = to_lower c.
Proof. by destruct c as [[] [] [] [] [] [] [] []]. Qed.











(** *** Primary keys *)

Lemma foldr_max_seq n : ∀ s,
  foldr Nat.max 0 (seq s n) = match n with 0 => 0 | S m => s + m end.
Proof.
  induction n as [|n IH]; intros s; simpl; [done|].
  rewrite IH. destruct n; lia.
Qed.

Lemma next_id_seq n : next_id (seq 1 n) = S n.
Proof. unfold next_id. rewrite foldr_max_seq. by destruct n. Qed.

Lemma next_id_above ids x : x ∈ ids → x < next_id ids.
Proof.
  unfold next_id. induction 1 as [x l | x y l _ IH]; simpl; lia.
Qed.

Lemma find_appended {A} (f : A → bool) l x :
  (∀ y, y ∈ l → f y = false) → f x = true → find f (l ++ [x]) = Some x.
Proof.
  intros Hl Hx. induction l as [|y l IH]; simpl.
  - by rewrite Hx.
  - rewrite (Hl y) by left. apply IH. intros z Hz. apply Hl. by right.
Qed.

Lemma register_fresh_email w form salt :
  register_email form ∉ User.email <$> users (db w) →
  serve (register (Some form) salt) w
  = let new_user :=
      User.mk (next_id (User.id <$> users (db w))) (register_email form)
              (generate_password_hash (register_password form) salt)
              (title (register_name form)) in
    (Served (redirect to_get_all_posts),
     mkWorld (mkDb (users (db w) ++ [new_user]) (blog_posts (db w))
                   (comments (db w)))
             (Some (User.id new_user)) (flashes w)).
Proof.
  intros Hfresh. unfold register, db_session_add_commit_User. unfold_monad.
  by rewrite bool_decide_false.
Qed.


(** C8, as the code has it: a validated new-post submission by the admin
    whose title no stored post has yet appends one post; fetched by its
    id, that post has the submitted title, subtitle, body and image, the
    current user as author and the formatted day of creation as date. *)
Theorem add_new_post_then_get (w : World) (u : User.t)
    (form : CreatePostForm) (today : Date) :
  authenticated_as w u → User.id u = 1 →
  form_title form ∉ BlogPost.title <$> blog_posts (db w) →
  let new_post :=
    BlogPost.mk (next_id (BlogPost.id <$> blog_posts (db w)))
                (Some (User.id u)) (form_title form) (form_subtitle form)
                (strftime today) (form_body form) (form_img_url form) in
  let w' :=
    mkWorld (mkDb (users (db w)) (blog_posts (db w) ++ [new_post])
                  (comments (db w)))
            (session_user_id w) (flashes w) in
  serve (add_new_post (Some form) today) w
  = (Served (redirect to_get_all_posts), w')
  ∧ BlogPost_query_get (db w') (BlogPost.id new_post) = Some new_post.
Proof.
  intros Hauth Hadmin Hfresh. simpl. split.
  - unfold add_new_post, serve.
    rewrite (login_required_authenticated _ _ _ Hauth).
    rewrite (admin_only_admin _ _ _ Hauth Hadmin).
    unfold add_new_post_body, db_session_add_commit_BlogPost,
      relationship_User_set.
    unfold_monad. unfold authenticated_as in Hauth. rewrite Hauth. simpl.
    by rewrite bool_decide_false.
  - unfold BlogPost_query_get. simpl. apply find_appended.
    + intros q Hq. apply bool_decide_eq_false.
      assert (BlogPost.id q < next_id (BlogPost.id <$> blog_posts (db w)));
        [|lia].
      apply next_id_above. by apply list_elem_of_fmap_2.
    + by apply bool_decide_eq_true.
Qed.

(** *** What the handlers do, case by case *)

Lemma register_taken_email w form salt :
  register_email form ∈ User.email <$> users (db w) →
  serve (register (Some form) salt) w = (Failed 500 IntegrityError, w).
Proof.
  intros Htaken. unfold register, db_session_add_commit_User. unfold_monad.
  by rewrite bool_decide_true.
Qed.

Lemma show_post_anonymous w post_id form today :
  anonymous w →
  serve (show_post post_id (Some form) today) w
  = (Served (render_template
               (post_html (BlogPost_query_get (db w) post_id) (strftime today))),
     mkWorld (db w) (session_user_id w) (flashes w ++ [msg_login_to_comment])).
Proof. unfold anonymous, show_post. unfold_monad. by intros ->. Qed.

Lemma show_post_authenticated w post_id form today u :
  authenticated_as w u →
  serve (show_post post_id (Some form) today) w
  = (Served (render_template
               (post_html (BlogPost_query_get (db w) post_id) (strftime today))),
     mkWorld (mkDb (users (db w)) (blog_posts (db w))
                   (comments (db w)
                    ++ [Comment.mk (next_id (Comment.id <$> comments (db w)))
                                   (Some (User.id u))
                                   (BlogPost.id <$> BlogPost_query_get (db w) post_id)
                                   (comment_text form)]))
             (session_user_id w) (flashes w)).
Proof.
  unfold authenticated_as, show_post, db_session_add_commit_Comment,
    relationship_User_set.
  unfold_monad. by intros ->.
Qed.

(** *** The store invariant *)

Lemma store_invariant_initial : store_invariant (db initial_world).
Proof. split; [done | constructor]. Qed.

Lemma has_stored_author_more_users d d' c :
  users d ⊆ users d' → has_stored_author d c → has_stored_author d' c.
Proof. intros Hsub (u & Hu & Hc). exists u. split; [by apply Hsub | done]. Qed.

Lemma has_stored_author_orphan d pid c :
  has_stored_author d c → has_stored_author d (orphan pid c).
Proof. unfold orphan. by case_bool_decide. Qed.

Lemma store_invariant_step r w :
  store_invariant (db w) → store_invariant (db (serve (route r) w).2).
Proof.
  intros [Hids Hcomments].
  destruct r as [|form salt|form| |post_id form today| | |form today
                |post_id form|post_id]; simpl.
  - done.
  - destruct form as [form|]; [|done].
    destruct (decide (register_email form ∈ User.email <$> users (db w)))
      as [Hdup|Hfresh].
    + by rewrite (register_taken_email _ _ _ Hdup).
    + rewrite (register_fresh_email _ _ _ Hfresh). simpl. split; simpl.
      * by rewrite fmap_app, length_app, seq_app, Hids, next_id_seq.
      * eapply Forall_impl; [exact Hcomments|].
        intros c. apply has_stored_author_more_users. simpl.
        by apply list_subseteq_app_l.
  - destruct form as [form|]; [|done]. unfold login. unfold_monad.
    repeat case_match; simplify_eq; done.
  - done.
  - destruct form as [form|]; [|done].
    destruct (session_user_id w ≫= load_user (db w)) as [u|] eqn:Hauth.
    + rewrite (show_post_authenticated _ _ _ _ _ Hauth). simpl.
      split; [done|]. simpl. apply Forall_app. split.
      * eapply Forall_impl; [exact Hcomments|].
        intros c. by apply has_stored_author_more_users.
      * apply Forall_singleton. exists u.
        split; [by apply authenticated_as_stored | done].
    + by rewrite (show_post_anonymous _ _ _ _ Hauth).
  - done.
  - done.
  - unfold add_new_post, add_new_post_body, login_required, admin_only,
      db_session_add_commit_BlogPost, relationship_User_set.
    unfold_monad. repeat case_match; simplify_eq; try done.
  - unfold edit_post, edit_post_body, login_required, admin_only,
      db_session_commit_BlogPost, relationship_User_set, getattr_name.
    unfold_monad. repeat case_match; simplify_eq; try done.
  - unfold delete_post, delete_post_body, login_required, admin_only,
      db_session_delete, db_session_commit_delete.
    unfold_monad. repeat case_match; simplify_eq; try done.
    simpl. split; [done|]. simpl. apply Forall_fmap.
    eapply Forall_impl; [exact Hcomments|].
    intros c Hc. simpl. apply has_stored_author_orphan.
    by eapply has_stored_author_more_users.
Qed.

Lemma run_snoc rs r w : run (rs ++ [r]) w = (serve (route r) (run rs w)).2.
Proof. unfold run. by rewrite foldl_app. Qed.

Lemma reachable_store_invariant w : reachable w → store_invariant (db w).
Proof.
  intros [rs <-]. induction rs as [|r rs IH] using rev_ind.
  - apply store_invariant_initial.
  - rewrite run_snoc. by apply store_invariant_step.
Qed.

Lemma reachable_first_user_id w first :
  reachable w → head (users (db w)) = Some first → User.id first = 1.
Proof.
  intros Hreach Hhead. apply reachable_store_invariant in Hreach as [Hids _].
  destruct (users (db w)) as [|x l]; simplify_eq/=. done.
Qed.

(** C1: in a world the application can reach, a request to new-post,
    edit-post or delete-post from an authenticated user other than the
    first user ever created is aborted with 403 before the handler body
    runs (whatever the body, the world is untouched); for the first
    user, and only for that user, the guards hand over to the body. *)
Theorem admin_actions_first_user_only (w : World) (u first : User.t) :
  reachable w → authenticated_as w u →
  head (users (db w)) = Some first →
  (User.id u ≠ User.id first →
     (∀ A (body : M A),
         login_required (admin_only body) w = (inl (HTTPException 403), w))
     ∧ (∀ form today,
          serve (add_new_post form today) w
          = (Failed 403 (HTTPException 403), w))
     ∧ (∀ post_id form,
          serve (edit_post post_id form) w
          = (Failed 403 (HTTPException 403), w))
     ∧ (∀ post_id,
          serve (delete_post post_id) w
          = (Failed 403 (HTTPException 403), w)))
  ∧ (User.id u = User.id first →
       u = first
       ∧ ∀ A (body : M A), login_required (admin_only body) w = body w).
Proof.
  intros Hreach Hauth Hhead.
  pose proof (reachable_first_user_id _ _ Hreach Hhead) as Hone.
  rewrite Hone. split.
  - intros Hother.
    assert (∀ A (body : M A),
               login_required (admin_only body) w
               = (inl (HTTPException 403), w)) as Hguard.
    { intros A body. rewrite (login_required_authenticated _ _ _ Hauth).
      by apply (admin_only_other _ _ u). }
    split_and!; [done|..]; intros;
      unfold add_new_post, edit_post, delete_post, serve;
      by rewrite Hguard.
  - intros Hsame. split.
    + unfold authenticated_as, load_user, User_query_get in Hauth.
      destruct (session_user_id w) as [i|]; [|done]. simpl in Hauth.
      pose proof Hauth as Hfind. apply find_some in Hfind as [_ Hi].
      apply bool_decide_eq_true in Hi.
      destruct (users (db w)) as [|x l]; simplify_eq/=.
      rewrite bool_decide_true in Hauth by congruence. congruence.
    + intros A body. rewrite (login_required_authenticated _ _ _ Hauth).
      by apply (admin_only_admin _ _ u).
Qed.

(** C7, as the code has it: in every world the application can reach,
    and after any further request, each comment has an author who is a
    stored user.  A comment created from an authenticated session has
    the current user as author; its parent is the stored post of the
    requested id when there is one, and is empty when there is none. *)
Theorem comment_author_invariant (w : World) :
  reachable w →
  Forall (has_stored_author (db w)) (comments (db w))
  ∧ (∀ r, let after := (serve (route r) w).2 in
          Forall (has_stored_author (db after)) (comments (db after)))
  ∧ (∀ post_id form today u,
       authenticated_as w u →
       ∃ c, comments (db (serve (show_post post_id (Some form) today) w).2)
            = (comments (db w) ++ [c])%list
            ∧ Comment.author_id c = Some (User.id u)
            ∧ has_stored_author (db w) c
            ∧ match BlogPost_query_get (db w) post_id with
              | Some p =>
                  Comment.post_id c = Some post_id ∧ has_stored_post (db w) c
              | None => Comment.post_id c = None
              end).
Proof.
  intros Hreach. pose proof (reachable_store_invariant _ Hreach) as Hinv.
  split_and!.
  - apply Hinv.
  - intros r. simpl. by apply store_invariant_step.
  - intros post_id form today u Hauth.
    rewrite (show_post_authenticated _ _ _ _ _ Hauth). eexists.
    split_and!; [done|done| |].
    { exists u. split; [by apply authenticated_as_stored | done]. }
    destruct (BlogPost_query_get (db w) post_id) as [p|] eqn:Hget; [|done].
    apply BlogPost_query_get_Some in Hget as [Hp <-].
    split; [done|]. by exists p.
Qed.

End Properties.

(** C9, as the code has it: a SECRET_KEY missing from the environment does
    not stop the import.  Start-up fails with the same exception, if any,
    as it would with a secret set: only when [db.create_all()] raises for
    the configured database URI.  Whenever start-up succeeds without the
    variable, the application is configured with [SECRET_KEY = None]. *)
Theorem startup_without_secret_key `{Host} (environ : gmap string string) :
  environ !! "SECRET_KEY" = None →
  (∀ secret e,
      startup environ = inl e
      ↔ startup (<["SECRET_KEY":=secret]> environ) = inl e)
  ∧ (∀ e, startup environ = inl e →
          isfile "sqlite:///blog.db" = false
          ∧ create_all (environ_get_default environ "DATABASE_URL"
                                            "sqlite:///blog.db") = Some e)
  ∧ (∀ config, startup environ = inr config → SECRET_KEY config = None)
  ∧ (create_all (environ_get_default environ "DATABASE_URL"
                                     "sqlite:///blog.db") = None →
     ∃ config, startup environ = inr config ∧ SECRET_KEY config = None).
Proof.
  intros Habsent. split_and!.
  - intros secret e. unfold startup, environ_get_default.
    rewrite lookup_insert_ne by done.
    destruct (isfile _); [done|]. by destruct (create_all _).
  - intros e. unfold startup. destruct (isfile _); [done|].
    destruct (create_all _) as [e'|]; [|done]. intros [= ->]. done.
  - intros config. unfold startup, environ_get. rewrite Habsent.
    destruct (isfile _); [by intros [= <-]|].
    destruct (create_all _); [done | by intros [= <-]].
  - intros Hcreated. unfold startup, environ_get. rewrite Hcreated, Habsent.
    destruct (isfile _); by eexists.
Qed.

Lemma startup_without_secret_key_witness :
  ∃ config,
    @startup sqlite_host ∅ = inr config ∧ SECRET_KEY config = None.
Proof.
  apply (@startup_without_secret_key sqlite_host ∅); reflexivity.
Defined.

(** Counterexample to C9: started in an empty environment, on a host where
    the tables of the default SQLite file can be created, the application
    does not stop with an exception. *)
Lemma startup_empty_environ_succeeds :
  (∅ : gmap string string) !! "SECRET_KEY" = None
  ∧ ¬ (∃ e, @startup sqlite_host ∅ = inl e)
  ∧ @startup sqlite_host ∅
    = inr (mkConfig "sqlite:///blog.db" false None "standard-all").
Proof.
  split_and!; [reflexivity | intros [e He]; discriminate He | reflexivity].
Qed.


(** ** The properties on concrete runs *)

Lemma two_users_reachable : @reachable toy_werkzeug two_users.
Proof. by eexists. Qed.

Lemma one_post_reachable : @reachable toy_werkzeug one_post.
Proof. by eexists. Qed.

Lemma admin_actions_first_user_only_witness :
  serve (delete_post 1) two_users = (Failed 403 (HTTPException 403), two_users)
  ∧ ∀ A (body : M A), login_required (admin_only body) one_post = body one_post.
Proof.
  split.
  - apply (@admin_actions_first_user_only toy_werkzeug two_users bob_user
             alice_user two_users_reachable eq_refl eq_refl).
    vm_compute. discriminate.
  - apply (@admin_actions_first_user_only toy_werkzeug one_post alice_user
             alice_user one_post_reachable eq_refl eq_refl).
    reflexivity.
Defined.

Lemma logged_out_reachable : @reachable toy_werkzeug logged_out.
Proof. by eexists. Qed.

(** Counterexample to C2: Alice's email is taken, and a second
    registration with it ends in a 500 error from the uncaught
    IntegrityError; nothing is flashed. *)
Lemma register_duplicate_email_uncaught :
  alice_user ∈ users (db logged_out)
  ∧ User.email alice_user = register_email alice_again
  ∧ (serve (@register toy_werkzeug (Some alice_again) "s3") logged_out).1
    = Failed 500 IntegrityError
  ∧ flashes (serve (@register toy_werkzeug (Some alice_again) "s3") logged_out).2
    = [].
Proof. split_and!; [by left|done..]. Qed.

Lemma register_duplicate_email_witness :
  serve (@register toy_werkzeug (Some alice_again) "s3") logged_out
  = (Failed 500 IntegrityError, logged_out).
Proof.
  apply (@register_duplicate_email toy_werkzeug logged_out alice_user).
  - left.
  - reflexivity.
Defined.

(** Counterexample to C3: the admin's delete of post 7, which does not
    exist, ends in a 500 error. *)
Lemma delete_missing_post_crashes :
  authenticated_as one_post alice_user
  ∧ User.id alice_user = 1
  ∧ BlogPost_query_get (db one_post) 7 = None
  ∧ serve (delete_post 7) one_post = (Failed 500 UnmappedInstanceError, one_post).
Proof. by split_and!. Qed.

Lemma delete_missing_post_witness :
  serve (delete_post 7) one_post = (Failed 500 UnmappedInstanceError, one_post)
  ∧ serve get_all_posts (serve (delete_post 7) one_post).2
    = (Served (render_template (index_html [hello_post])), one_post).
Proof.
  apply (delete_missing_post one_post alice_user 7); reflexivity.
Defined.

Lemma login_failure_messages_witness :
  serve (@login toy_werkzeug (Some (mkLoginForm "alice@example.com" "rabbit")))
        logged_out
  = (Served (render_template login_html),
     mkWorld (db logged_out) None [msg_invalid_password])
  ∧ serve (@login toy_werkzeug (Some (mkLoginForm "carol@example.com" "x")))
          logged_out
    = (Served (render_template login_html),
       mkWorld (db logged_out) None [msg_no_user]).
Proof.
  split.
  - apply (proj1 (@login_failure_messages toy_werkzeug logged_out
                    (mkLoginForm "alice@example.com" "rabbit")) alice_user);
      reflexivity.
  - apply (proj1 (proj2 (@login_failure_messages toy_werkzeug logged_out
                           (mkLoginForm "carol@example.com" "x"))));
      reflexivity.
Defined.

Lemma comment_submission_witness :
  serve (show_post 1 (Some (mkCommentForm "nice")) nov3) logged_out
  = (Served (render_template (post_html None "November 03, 2026")),
     mkWorld (db logged_out) None [msg_login_to_comment])
  ∧ serve (show_post 1 (Some (mkCommentForm "nice")) nov3) one_post
    = (Served (render_template (post_html (Some hello_post) "November 03, 2026")),
       mkWorld (mkDb [alice_user] [hello_post]
                     [Comment.mk 1 (Some 1) (Some 1) "nice"])
               (Some 1) []).
Proof.
  split.
  - apply (proj1 (comment_submission logged_out 1 (mkCommentForm "nice") nov3)).
    reflexivity.
  - apply (proj2 (comment_submission one_post 1 (mkCommentForm "nice") nov3)
                 alice_user).
    reflexivity.
Defined.

(** C6 on a concrete run: the admin's validated edit of the stored post 1
    ends in a 500 error at line 258, and post 1 is as it was. *)
Theorem edit_post_failing_input :
  authenticated_as one_post alice_user
  ∧ User.id alice_user = 1
  ∧ serve (edit_post 1 (Some edited)) one_post
    = (Failed 500 AttributeError, one_post)
  ∧ BlogPost_query_get (db one_post) 1 = Some hello_post.
Proof. by split_and!. Qed.

(** Counterexample to C7: Bob comments on post 9, which does not exist,
    and the comment is stored with no parent post. *)
Lemma comment_without_parent_post :
  authenticated_as two_users bob_user
  ∧ ∃ c,
      comments (db (serve (show_post 9 (Some (mkCommentForm "lost")) nov3)
                          two_users).2) = [c]
      ∧ Comment.post_id c = None
      ∧ ¬ has_stored_post (db two_users) c.
Proof.
  split; [done|]. eexists. split_and!; [done..|].
  intros (p & Hp & _). inversion Hp.
Qed.

Lemma comment_author_invariant_witness :
  Forall (has_stored_author (db two_users)) (comments (db two_users))
  ∧ ∃ c,
      comments (db (serve (show_post 9 (Some (mkCommentForm "lost")) nov3)
                          two_users).2)
      = (comments (db two_users) ++ [c])%list
      ∧ Comment.author_id c = Some 2.
Proof.
  pose proof (@comment_author_invariant toy_werkzeug two_users
                two_users_reachable) as (Hall & _ & Hnew).
  split; [exact Hall|].
  destruct (Hnew 9 (mkCommentForm "lost") nov3 bob_user eq_refl)
    as (c & Hc & Hauthor & _).
  exists c. split; [exact Hc | exact Hauthor].
Defined.

(** Counterexample to C8: the admin submits a second post under the title
    of the first; the commit raises IntegrityError and no post with the
    submitted subtitle is stored. *)
Lemma add_new_post_duplicate_title :
  authenticated_as one_post alice_user
  ∧ User.id alice_user = 1
  ∧ serve (add_new_post (Some hello_again) nov3) one_post
    = (Failed 500 IntegrityError, one_post)
  ∧ Forall (λ p, BlogPost.subtitle p ≠ form_subtitle hello_again)
           (blog_posts (db one_post)).
Proof.
  split_and!; [done..|]. by repeat constructor.
Qed.

Lemma add_new_post_then_get_witness :
  serve (add_new_post (Some hello) nov3)
        (@run toy_werkzeug [Register (Some alice) "s1"] initial_world)
  = (Served (redirect to_get_all_posts), one_post)
  ∧ BlogPost_query_get (db one_post) 1 = Some hello_post.
Proof.
  apply (add_new_post_then_get
           (@run toy_werkzeug [Register (Some alice) "s1"] initial_world)
           alice_user hello nov3); [reflexivity | reflexivity |].
  vm_compute. intros Hin. inversion Hin.
Defined.


(** ** Every request is one of the five transitions *)

Section Transitions.
Context `{Werkzeug}.

Lemma to_upper_to_upper c : to_upper (to_upper c) = to_upper c.
Proof. by destruct c as [[] [] [] [] [] [] [] []]. Qed.

Lemma is_cased_to_upper c : is_cased (to_upper c) = is_cased c.
Proof. by destruct c as [[] [] [] [] [] [] [] []]. Qed.

Lemma title_from_idempotent s : ∀ b,
  title_from b (title_from b s) = title_from b s.
Proof.
  induction s as [|c s IH]; intros b; simpl; [done|].
  destruct b.
  - by rewrite is_cased_to_lower, to_lower_to_lower, IH.
  - by rewrite is_cased_to_upper, to_upper_to_upper, IH.
Qed.

Lemma title_from_length s : ∀ b,
  String.length (title_from b s) = String.length s.
Proof. induction s as [|c s IH]; intros b; simpl; [done|]. by rewrite IH. Qed.

(** The two decorators, by who is asking. *)
Lemma guards_cases {A} (body : M A) w :
  (anonymous w
   ∧ login_required (admin_only body) w = (inl (HTTPException 401), w))
  ∨ (∃ u, authenticated_as w u ∧ User.id u ≠ 1
          ∧ login_required (admin_only body) w = (inl (HTTPException 403), w))
  ∨ (∃ u, authenticated_as w u ∧ User.id u = 1
          ∧ login_required (admin_only body) w = body w).
Proof.
  destruct (session_user_id w ≫= load_user (db w)) as [u|] eqn:Hauth.
  - right. rewrite (login_required_authenticated _ _ _ Hauth).
    destruct (decide (User.id u = 1)) as [Hadmin|Hother].
    + right. exists u. split_and!; [done..|]. by apply (admin_only_admin _ _ u).
    + left. exists u. split_and!; [done..|]. by apply (admin_only_other _ _ u).
  - left. split; [done|]. by apply login_required_anonymous.
Qed.

Lemma add_new_post_body_fresh w u form today :
  authenticated_as w u →
  form_title form ∉ BlogPost.title <$> blog_posts (db w) →
  add_new_post_body (Some form) today w
  = (inr (redirect to_get_all_posts),
     mkWorld (mkDb (users (db w))
                   (blog_posts (db w)
                    ++ [BlogPost.mk (next_id (BlogPost.id <$> blog_posts (db w)))
                                    (Some (User.id u)) (form_title form)
                                    (form_subtitle form) (strftime today)
                                    (form_body form) (form_img_url form)])
                   (comments (db w)))
             (session_user_id w) (flashes w)).
Proof.
  intros Hauth Hfresh.
  unfold add_new_post_body, db_session_add_commit_BlogPost,
    relationship_User_set.
  unfold_monad. unfold authenticated_as in Hauth. rewrite Hauth. simpl.
  by rewrite bool_decide_false.
Qed.

Lemma add_new_post_body_taken w u form today :
  authenticated_as w u →
  form_title form ∈ BlogPost.title <$> blog_posts (db w) →
  add_new_post_body (Some form) today w = (inl IntegrityError, w).
Proof.
  intros Hauth Htaken.
  unfold add_new_post_body, db_session_add_commit_BlogPost,
    relationship_User_set.
  unfold_monad. unfold authenticated_as in Hauth. rewrite Hauth. simpl.
  by rewrite bool_decide_true.
Qed.

Lemma edit_post_body_get w post_id p :
  BlogPost_query_get (db w) post_id = Some p →
  edit_post_body post_id None w
  = (inr (render_template
            (make_post_html
               (Some (mkCreatePostForm (BlogPost.title p) (BlogPost.subtitle p)
                                       (BlogPost.img_url p) (BlogPost.body p)))
               true)), w).
Proof. intros Hp. unfold edit_post_body. unfold_monad. by rewrite Hp. Qed.

Lemma edit_post_body_missing w post_id form :
  BlogPost_query_get (db w) post_id = None →
  edit_post_body post_id form w = (inl AttributeError, w).
Proof. intros Hp. unfold edit_post_body. unfold_monad. by rewrite Hp. Qed.

Lemma edit_post_body_submitted w u post_id p form :
  authenticated_as w u →
  BlogPost_query_get (db w) post_id = Some p →
  edit_post_body post_id (Some form) w = (inl AttributeError, w).
Proof.
  intros Hauth Hp. unfold edit_post_body, getattr_name, relationship_User_set.
  unfold_monad. rewrite Hp. unfold authenticated_as in Hauth. by rewrite Hauth.
Qed.

Lemma delete_post_body_stored w post_id p :
  BlogPost_query_get (db w) post_id = Some p →
  delete_post_body post_id w
  = (inr (redirect to_get_all_posts),
     mkWorld (mkDb (users (db w))
                   (filter (λ q, BlogPost.id q ≠ BlogPost.id p) (blog_posts (db w)))
                   (orphan (BlogPost.id p) <$> comments (db w)))
             (session_user_id w) (flashes w)).
Proof.
  intros Hp. unfold delete_post_body, db_session_delete,
    db_session_commit_delete.
  unfold_monad. by rewrite Hp.
Qed.

Lemma delete_post_body_missing w post_id :
  BlogPost_query_get (db w) post_id = None →
  delete_post_body post_id w = (inl UnmappedInstanceError, w).
Proof.
  intros Hp. unfold delete_post_body, db_session_delete. unfold_monad.
  by rewrite Hp.
Qed.

Lemma transition_stay w f : transition w (mkWorld (db w) (session_user_id w) f).
Proof. apply tr_read, session_kept. Qed.

Lemma transition_refl w : transition w w.
Proof. destruct w as [d s f]. apply (transition_stay (mkWorld d s f)). Qed.

Lemma step_transition r w : transition w (serve (route r) w).2.
Proof.
  destruct r as [|form salt|form| |post_id form today| | |form today
                |post_id form|post_id]; simpl.
  - apply transition_refl.
  - destruct form as [form|]; [|apply transition_refl].
    destruct (decide (register_email form ∈ User.email <$> users (db w)))
      as [Htaken|Hfresh].
    + rewrite (register_taken_email _ _ _ Htaken). apply transition_refl.
    + rewrite (register_fresh_email _ _ _ Hfresh). simpl.
      apply (tr_register w (User.mk _ _ _ _)); simpl; [done..|].
      apply title_from_idempotent.
  - destruct form as [form|]; [|apply transition_refl].
    unfold login. unfold_monad.
    destruct (User_query_filter_by_email_first (db w) (login_email form))
      as [user|] eqn:Huser; simpl; [|apply transition_stay].
    destruct (check_password_hash _ _); simpl; [|apply transition_stay].
    apply tr_read, session_bound. unfold User_query_filter_by_email_first in Huser.
    apply find_some in Huser as [Hin _]. by apply list_elem_of_In.
  - apply tr_read, session_cleared.
  - destruct form as [form|].
    + destruct (session_user_id w ≫= load_user (db w)) as [u|] eqn:Hauth.
      * rewrite (show_post_authenticated _ _ _ _ _ Hauth). simpl.
        apply (tr_comment w u (Comment.mk _ _ _ _)); simpl; try done.
        intros i Hi.
        destruct (BlogPost_query_get (db w) post_id) as [p|] eqn:Hp; [|done].
        apply BlogPost_query_get_Some in Hp as [Hp _]. exists p.
        split; [done|]. simpl in Hi. by simplify_eq.
      * rewrite (show_post_anonymous _ _ _ _ Hauth). apply transition_stay.
    + apply transition_refl.
  - apply transition_refl.
  - apply transition_refl.
  - unfold add_new_post, serve.
    destruct (guards_cases (add_new_post_body form today) w)
      as [[_ ->]|[(u & _ & _ & ->)|(u & Hauth & Hadmin & ->)]];
      [apply transition_refl..|].
    destruct form as [form|]; [|apply transition_refl].
    destruct (decide (form_title form ∈ BlogPost.title <$> blog_posts (db w)))
      as [Htaken|Hfresh].
    + rewrite (add_new_post_body_taken _ _ _ _ Hauth Htaken).
      apply transition_refl.
    + rewrite (add_new_post_body_fresh _ _ _ _ Hauth Hfresh). simpl.
      apply (tr_add_post w u (BlogPost.mk _ _ _ _ _ _ _)); simpl; try done.
      by rewrite Hadmin.
  - unfold edit_post, serve.
    destruct (guards_cases (edit_post_body post_id form) w)
      as [[_ ->]|[(u & _ & _ & ->)|(u & Hauth & Hadmin & ->)]];
      [apply transition_refl..|].
    destruct (BlogPost_query_get (db w) post_id) as [p|] eqn:Hp.
    + destruct form as [form|].
      * rewrite (edit_post_body_submitted _ _ _ _ _ Hauth Hp).
        apply transition_refl.
      * rewrite (edit_post_body_get _ _ _ Hp). apply transition_refl.
    + rewrite (edit_post_body_missing _ _ _ Hp). apply transition_refl.
  - unfold delete_post, serve.
    destruct (guards_cases (delete_post_body post_id) w)
      as [[_ ->]|[(u & _ & _ & ->)|(u & Hauth & Hadmin & ->)]];
      [apply transition_refl..|].
    destruct (BlogPost_query_get (db w) post_id) as [p|] eqn:Hp.
    + rewrite (delete_post_body_stored _ _ _ Hp). simpl.
      apply (tr_delete_post w u p); [done..|].
      by apply BlogPost_query_get_Some in Hp as [? _].
    + rewrite (delete_post_body_missing _ _ Hp). apply transition_refl.
Qed.

(** *** The invariant of reachable worlds *)

Lemma NoDup_fmap_filter {A B} (f : A → B) (P : A → Prop)
    `{∀ x, Decision (P x)} l :
  NoDup (f <$> l) → NoDup (f <$> filter P l).
Proof.
  induction l as [|x l IH]; [done|]. rewrite fmap_cons, NoDup_cons.
  intros [Hx Hl]. rewrite filter_cons. case_decide; [|by apply IH].
  rewrite fmap_cons. apply NoDup_cons. split; [|by apply IH].
  intros Hin. apply Hx. apply list_elem_of_fmap in Hin as (y & -> & Hy).
  apply list_elem_of_fmap_2. by apply list_elem_of_filter in Hy as [_ ?].
Qed.

Lemma NoDup_fmap_snoc {A B} (f : A → B) l x :
  NoDup (f <$> l) → f x ∉ f <$> l → NoDup (f <$> (l ++ [x])%list).
Proof.
  intros Hl Hx. rewrite fmap_app. apply NoDup_app. split_and!; [done| |].
  - intros y Hy Hin. apply list_elem_of_singleton in Hin. by subst.
  - apply NoDup_singleton.
Qed.

Lemma next_id_fresh ids : next_id ids ∉ ids.
Proof. intros Hin. apply next_id_above in Hin. lia. Qed.

Lemma find_stored {A} (f : A → bool) l x :
  x ∈ l → f x = true → is_Some (find f l).
Proof.
  intros Hin Hx. induction Hin as [x l|x y l _ IH]; simpl.
  - rewrite Hx. by eexists.
  - destruct (f y); [by eexists | by apply IH].
Qed.

Lemma find_unique {A B} `{EqDecision B} (key : A → B) l x :
  NoDup (key <$> l) → x ∈ l →
  find (λ y, bool_decide (key y = key x)) l = Some x.
Proof.
  intros Hnodup Hin.
  destruct (find_stored (λ y, bool_decide (key y = key x)) l x Hin)
    as [y Hy]; [by apply bool_decide_eq_true|].
  rewrite Hy. f_equal. apply find_some in Hy as [Hyin Hkey].
  apply bool_decide_eq_true in Hkey. apply list_elem_of_In in Hyin.
  apply list_elem_of_lookup in Hin as [i Hi].
  apply list_elem_of_lookup in Hyin as [j Hj].
  assert (i = j) as ->; [|congruence].
  apply (NoDup_lookup (key <$> l) i j (key x)); [done|..].
  - by rewrite list_lookup_fmap, Hi.
  - rewrite list_lookup_fmap, Hj. simpl. by rewrite Hkey.
Qed.

Lemma stored_user_authenticates d u f :
  u ∈ users d → ∃ u', authenticated_as (mkWorld d (Some (User.id u)) f) u'
                      ∧ User.id u' = User.id u.
Proof.
  intros Hin. unfold authenticated_as, load_user, User_query_get. simpl.
  destruct (find_stored (λ y, bool_decide (User.id y = User.id u)) (users d) u
              Hin) as [u' Hu']; [by apply bool_decide_eq_true|].
  exists u'. split; [done|]. apply find_some in Hu' as [_ Hid].
  by apply bool_decide_eq_true in Hid.
Qed.

Lemma world_invariant_initial : world_invariant initial_world.
Proof.
  split_and!; try done.
  - split_and!; constructor.
  - constructor.
  - constructor.
  - constructor.
Qed.

Lemma orphan_id pid (l : list Comment.t) :
  Comment.id <$> (orphan pid <$> l) = Comment.id <$> l.
Proof.
  rewrite <- list_fmap_compose. apply list_fmap_ext. intros _ c _. simpl.
  unfold orphan. by case_bool_decide.
Qed.

Lemma transition_invariant w w' :
  transition w w' → world_invariant w → world_invariant w'.
Proof.
  intros Hstep
    (Hids & (Hu & He & Hp & Ht & Hc) & Hposts & Hnames & Hlinks & Hsession).
  destruct Hstep as [s f Hs|u Hemail Hid Hname|u c Hauth Hid Hauthor Hlink
                    |u p Hauth Hadmin Hid Htitle Hauthor|u p Hauth Hadmin Hin].
  - split_and!; try done. intros i Hi. simpl in Hi.
    destruct Hs as [| |u Hin].
    + destruct (Hsession i Hi) as (u & Hu' & Hid). by exists u.
    + done.
    + simplify_eq. destruct w as [d s0 f0]. by apply stored_user_authenticates.
  - assert (User.id <$> (users (db w) ++ [u])%list
            = seq 1 (length (users (db w) ++ [u])%list)) as Hids'.
    { rewrite fmap_app, length_app, seq_app, Hids. simpl.
      by rewrite Hid, Hids, next_id_seq. }
    split_and!; simpl.
    + done.
    + split_and!; simpl; try done.
      * rewrite Hids'. apply NoDup_seq.
      * by apply NoDup_fmap_snoc.
    + eapply Forall_impl; [exact Hposts|]. simpl.
      intros p [Hp1 (a & Ha & Ha1)]. split; [done|]. exists a.
      split; [|done]. apply elem_of_app. by left.
    + apply Forall_app. split; [done|]. by apply Forall_singleton.
    + exact Hlinks.
    + intros i Hi. simpl in Hi. simplify_eq. exists u. split; [|done].
      unfold authenticated_as, load_user, User_query_get. simpl.
      apply find_unique; [by rewrite Hids'; apply NoDup_seq|].
      apply elem_of_app. right. by apply list_elem_of_singleton.
  - split_and!; simpl; try done.
    + split_and!; simpl; try done.
      apply NoDup_fmap_snoc; [done|]. rewrite Hid. apply next_id_fresh.
    + apply Forall_app. split; [done|]. by apply Forall_singleton.
  - split_and!; simpl; try done.
    + split_and!; simpl; try done.
      * apply NoDup_fmap_snoc; [done|]. rewrite Hid. apply next_id_fresh.
      * by apply NoDup_fmap_snoc.
    + apply Forall_app. split; [done|]. apply Forall_singleton.
      split; [done|]. exists u. split; [|done].
      by apply authenticated_as_stored.
    + eapply Forall_impl; [exact Hlinks|]. simpl.
      intros c Hlc i Hi. destruct (Hlc i Hi) as (q & Hq & Hqi). exists q.
      split; [|done]. apply elem_of_app. by left.
  - split_and!; simpl; try done.
    + split_and!; simpl; try done.
      * by apply NoDup_fmap_filter.
      * by apply NoDup_fmap_filter.
      * by rewrite orphan_id.
    + unfold posts_by_admin in *. simpl. rewrite Forall_forall in Hposts.
      apply Forall_forall. intros q Hq.
      apply list_elem_of_filter in Hq as [_ Hq]. by apply Hposts.
    + unfold comments_linked in *. simpl. apply Forall_fmap.
      eapply Forall_impl; [exact Hlinks|]. simpl.
      intros c Hlc i Hi. unfold orphan in Hi.
      case_bool_decide as Hdel; [done|].
      destruct (Hlc i Hi) as (q & Hq & Hqi). exists q. split; [|done].
      apply list_elem_of_filter. split; [|done]. congruence.
Qed.

Lemma reachable_world_invariant w : reachable w → world_invariant w.
Proof.
  intros [rs <-]. induction rs as [|r rs IH] using rev_ind.
  - apply world_invariant_initial.
  - rewrite run_snoc. eapply transition_invariant; [|exact IH].
    apply step_transition.
Qed.

Lemma reachable_step r w : reachable w → reachable (serve (route r) w).2.
Proof. intros [rs <-]. exists (rs ++ [r])%list. apply run_snoc. Qed.

(** *** Logging in and out *)

Lemma reachable_user_lookup w u :
  reachable w → u ∈ users (db w) →
  User_query_get (db w) (User.id u) = Some u
  ∧ User_query_filter_by_email_first (db w) (User.email u) = Some u.
Proof.
  intros Hreach Hin.
  destruct (reachable_world_invariant _ Hreach) as (_ & (Hids & Hemails & _) & _).
  split.
  - by apply (find_unique User.id).
  - by apply (find_unique User.email).
Qed.

Lemma email_lookup_stored d e u :
  User_query_filter_by_email_first d e = Some u → u ∈ users d ∧ User.email u = e.
Proof.
  unfold User_query_filter_by_email_first. intros Hfind.
  apply find_some in Hfind as [Hin He].
  split; [by apply list_elem_of_In | by apply bool_decide_eq_true in He].
Qed.

Lemma login_accepted w form user :
  User_query_filter_by_email_first (db w) (login_email form) = Some user →
  check_password_hash (User.password user) (login_password form) = true →
  serve (login (Some form)) w
  = (Served (redirect to_get_all_posts),
     mkWorld (db w) (Some (User.id user)) (flashes w)).
Proof.
  intros Hfound Hcheck. unfold login. unfold_monad. by rewrite Hfound, Hcheck.
Qed.

(** X1: in a reachable world, a validated login whose email finds a user
    and whose password passes hash verification redirects to the post
    list and binds the session to that user: the next request resolves
    [current_user] to exactly the user found; database and flashes are
    unchanged. *)
Theorem login_binds_session (w : World) (form : LoginForm) (user : User.t) :
  reachable w →
  User_query_filter_by_email_first (db w) (login_email form) = Some user →
  check_password_hash (User.password user) (login_password form) = true →
  serve (login (Some form)) w
  = (Served (redirect to_get_all_posts),
     mkWorld (db w) (Some (User.id user)) (flashes w))
  ∧ authenticated_as (mkWorld (db w) (Some (User.id user)) (flashes w)) user.
Proof.
  intros Hreach Hfound Hcheck. split; [by apply login_accepted|].
  apply email_lookup_stored in Hfound as [Hin _].
  unfold authenticated_as, load_user. simpl.
  by apply reachable_user_lookup.
Qed.

Lemma anonymous_unauthorized {A} (body : M A) w :
  anonymous w →
  login_required (admin_only body) w = (inl (HTTPException 401), w).
Proof. apply login_required_anonymous. Qed.

(** X2: whoever asks, logout clears the session binding and redirects to
    the post list without touching database or flashes; from the world
    it leaves, new-post, edit-post and delete-post all answer 401 and
    change nothing. *)
Theorem logout_clears_session (w : World) :
  serve logout w
  = (Served (redirect to_get_all_posts), mkWorld (db w) None (flashes w))
  ∧ anonymous (mkWorld (db w) None (flashes w))
  ∧ ∀ post_id form today,
      let w' := mkWorld (db w) None (flashes w) in
      serve (add_new_post form today) w' = (Failed 401 (HTTPException 401), w')
      ∧ serve (edit_post post_id form) w' = (Failed 401 (HTTPException 401), w')
      ∧ serve (delete_post post_id) w' = (Failed 401 (HTTPException 401), w').
Proof.
  split_and!; [done..|]. intros post_id form today. simpl.
  unfold add_new_post, edit_post, delete_post, serve.
  by rewrite !anonymous_unauthorized.
Qed.

(** X3: the authentication guard runs before the admin guard: for an
    anonymous session the three guarded routes answer 401 whatever the
    guarded body is, the body is not run, and [admin_only] never gets to
    read [current_user.id]. *)
Theorem anonymous_admin_routes_unauthorized (w : World) :
  anonymous w →
  (∀ A (body : M A),
      login_required (admin_only body) w = (inl (HTTPException 401), w))
  ∧ (∀ A (body : M A), admin_only body w = (inl AttributeError, w))
  ∧ (∀ post_id form today,
       serve (add_new_post form today) w = (Failed 401 (HTTPException 401), w)
       ∧ serve (edit_post post_id form) w = (Failed 401 (HTTPException 401), w)
       ∧ serve (delete_post post_id) w = (Failed 401 (HTTPException 401), w)).
Proof.
  intros Hanon. split_and!.
  - intros A body. by apply anonymous_unauthorized.
  - intros A body. unfold admin_only. unfold_monad.
    unfold anonymous in Hanon. by rewrite Hanon.
  - intros post_id form today.
    unfold add_new_post, edit_post, delete_post, serve.
    by rewrite !anonymous_unauthorized.
Qed.

(** *** Registration *)

Lemma register_fresh_world w form salt :
  reachable w →
  register_email form ∉ User.email <$> users (db w) →
  let new_user :=
    User.mk (S (length (users (db w)))) (register_email form)
            (generate_password_hash (register_password form) salt)
            (title (register_name form)) in
  let w' :=
    mkWorld (mkDb (users (db w) ++ [new_user]) (blog_posts (db w))
                  (comments (db w)))
            (Some (User.id new_user)) (flashes w) in
  serve (register (Some form) salt) w = (Served (redirect to_get_all_posts), w')
  ∧ authenticated_as w' new_user
  ∧ User_query_filter_by_email_first (db w') (register_email form)
    = Some new_user.
Proof.
  intros Hreach Hfresh new_user w'.
  assert (serve (register (Some form) salt) w
          = (Served (redirect to_get_all_posts), w')) as Hreg.
  { rewrite (register_fresh_email _ _ _ Hfresh). simpl.
    destruct (reachable_world_invariant _ Hreach) as (Hids & _).
    by rewrite Hids, next_id_seq. }
  split; [done|].
  pose proof (reachable_step (Register (Some form) salt) w Hreach) as Hreach'.
  cbn [route] in Hreach'. rewrite Hreg in Hreach'. cbn [snd] in Hreach'.
  assert (new_user ∈ users (db w')) as Hin.
  { simpl. apply elem_of_app. right. by apply list_elem_of_singleton. }
  destruct (reachable_user_lookup _ _ Hreach' Hin) as [Hid Hemail].
  split; [|exact Hemail].
  unfold authenticated_as, load_user. exact Hid.
Qed.

(** X4: in a reachable world, a validated registration with an unused
    email appends exactly one user, with the submitted email, with the
    value [generate_password_hash] returns for the submitted password as
    stored password, and with an id no earlier user has; the session is
    bound to that user, [current_user] resolves to it, and looking the
    email up afterwards finds it. *)
Theorem register_logs_in (w : World) (form : RegisterForm) (salt : string) :
  reachable w →
  register_email form ∉ User.email <$> users (db w) →
  ∃ new_user,
    let after :=
      mkWorld (mkDb (users (db w) ++ [new_user]) (blog_posts (db w))
                    (comments (db w)))
              (Some (User.id new_user)) (flashes w) in
    serve (register (Some form) salt) w
    = (Served (redirect to_get_all_posts), after)
    ∧ User.email new_user = register_email form
    ∧ User.password new_user
      = generate_password_hash (register_password form) salt
    ∧ (User.id new_user ∉ User.id <$> users (db w))
    ∧ authenticated_as after new_user
    ∧ User_query_filter_by_email_first (db after) (register_email form)
      = Some new_user.
Proof.
  intros Hreach Hfresh.
  destruct (register_fresh_world w form salt Hreach Hfresh)
    as (Hserved & Hauth & Hfound).
  eexists. simpl. split_and!; [exact Hserved|done|done| |exact Hauth|exact Hfound].
  simpl. destruct (reachable_world_invariant _ Hreach) as (Hids & _).
  rewrite Hids. intros Hin. apply elem_of_seq in Hin. lia.
Qed.

(** X5: registering, logging out and logging in again with the same
    email and password leads back to the world reached right after the
    registration, provided the hash of the password verifies against the
    password. *)
Theorem register_logout_login (w : World) (form : RegisterForm)
    (salt : string) :
  reachable w →
  register_email form ∉ User.email <$> users (db w) →
  check_password_hash
    (generate_password_hash (register_password form) salt)
    (register_password form) = true →
  let registered := (serve (register (Some form) salt) w).2 in
  let credentials :=
    mkLoginForm (register_email form) (register_password form) in
  serve (login (Some credentials)) (serve logout registered).2
  = (Served (redirect to_get_all_posts), registered).
Proof.
  intros Hreach Hfresh Hcheck registered credentials. subst registered.
  destruct (register_fresh_world w form salt Hreach Hfresh) as (Hreg & _ & Hfind).
  rewrite Hreg. cbn [snd].
  match goal with
  | |- serve _ (serve logout ?registered).2 = _ =>
      apply (login_accepted
               (mkWorld (db registered) None (flashes registered)) credentials
               _ Hfind Hcheck)
  end.
Qed.

(** *** Deleting, editing and viewing posts *)

Lemma find_filter_gone {A} (key : A → nat) j l :
  find (λ q, bool_decide (key q = j)) (filter (λ q, key q ≠ j) l) = None.
Proof.
  induction l as [|x l IH]; [done|]. rewrite filter_cons.
  case_decide as Hx; [|done]. simpl. by rewrite bool_decide_false.
Qed.

Lemma find_filter_other {A} (key : A → nat) i j l :
  i ≠ j →
  find (λ q, bool_decide (key q = i)) (filter (λ q, key q ≠ j) l)
  = find (λ q, bool_decide (key q = i)) l.
Proof.
  intros Hij. induction l as [|x l IH]; [done|]. rewrite filter_cons.
  case_decide as Hx; simpl.
  - by rewrite IH.
  - rewrite bool_decide_false; [done|]. congruence.
Qed.

Lemma delete_post_stored w u post_id p :
  authenticated_as w u → User.id u = 1 →
  BlogPost_query_get (db w) post_id = Some p →
  serve (delete_post post_id) w
  = (Served (redirect to_get_all_posts),
     mkWorld (mkDb (users (db w))
                   (filter (λ q, BlogPost.id q ≠ post_id) (blog_posts (db w)))
                   (orphan post_id <$> comments (db w)))
             (session_user_id w) (flashes w)).
Proof.
  intros Hauth Hadmin Hp. unfold delete_post, serve.
  rewrite (login_required_authenticated _ _ _ Hauth).
  rewrite (admin_only_admin _ _ _ Hauth Hadmin).
  rewrite (delete_post_body_stored _ _ _ Hp).
  by apply BlogPost_query_get_Some in Hp as [_ ->].
Qed.

(** X6: when the admin deletes a stored post, the request redirects to
    the post list; afterwards the id finds no post, every other id finds
    what it found before, users and session are as they were, no comment
    points at the deleted id any more, and deleting the same id again
    ends in a 500 error. *)
Theorem delete_post_removes (w : World) (u : User.t) (post_id : nat)
    (p : BlogPost.t) :
  authenticated_as w u → User.id u = 1 →
  BlogPost_query_get (db w) post_id = Some p →
  let after := (serve (delete_post post_id) w).2 in
  (serve (delete_post post_id) w).1 = Served (redirect to_get_all_posts)
  ∧ BlogPost_query_get (db after) post_id = None
  ∧ (∀ i, i ≠ post_id →
          BlogPost_query_get (db after) i = BlogPost_query_get (db w) i)
  ∧ users (db after) = users (db w)
  ∧ session_user_id after = session_user_id w
  ∧ Forall (λ c, Comment.post_id c ≠ Some post_id) (comments (db after))
  ∧ serve (delete_post post_id) after
    = (Failed 500 UnmappedInstanceError, after).
Proof.
  intros Hauth Hadmin Hp after. subst after.
  rewrite (delete_post_stored _ _ _ _ Hauth Hadmin Hp). cbn [fst snd].
  assert (BlogPost_query_get
            (mkDb (users (db w))
                  (filter (λ q, BlogPost.id q ≠ post_id) (blog_posts (db w)))
                  (orphan post_id <$> comments (db w))) post_id = None) as Hgone.
  { apply (find_filter_gone BlogPost.id). }
  split_and!; try done.
  - intros i Hi. by apply (find_filter_other BlogPost.id).
  - simpl. apply Forall_fmap, Forall_forall. intros c _. simpl.
    unfold orphan. case_bool_decide; [done|]. done.
  - unfold delete_post, serve.
    rewrite (login_required_authenticated _ _ u) by exact Hauth.
    rewrite (admin_only_admin _ _ u) by done.
    match goal with
    | |- context [delete_post_body post_id ?after] =>
        by rewrite (delete_post_body_missing after post_id Hgone)
    end.
Qed.

(** X7: for the admin, opening the edit page of a stored post renders the
    post form pre-filled with the stored title, subtitle, image and body
    and changes nothing; for an id that names no post the edit route
    ends in a 500 error (AttributeError at line 248), with or without a
    submitted form. *)
Theorem edit_post_page (w : World) (u : User.t) (post_id : nat) :
  authenticated_as w u → User.id u = 1 →
  (∀ p, BlogPost_query_get (db w) post_id = Some p →
        serve (edit_post post_id None) w
        = (Served (render_template
                     (make_post_html
                        (Some (mkCreatePostForm
                                 (BlogPost.title p) (BlogPost.subtitle p)
                                 (BlogPost.img_url p) (BlogPost.body p)))
                        true)), w))
  ∧ (BlogPost_query_get (db w) post_id = None →
     ∀ form, serve (edit_post post_id form) w = (Failed 500 AttributeError, w)).
Proof.
  intros Hauth Hadmin. split.
  - intros p Hp. unfold edit_post, serve.
    rewrite (login_required_authenticated _ _ _ Hauth).
    rewrite (admin_only_admin _ _ _ Hauth Hadmin).
    by rewrite (edit_post_body_get _ _ _ Hp).
  - intros Hp form. unfold edit_post, serve.
    rewrite (login_required_authenticated _ _ _ Hauth).
    rewrite (admin_only_admin _ _ _ Hauth Hadmin).
    by rewrite (edit_post_body_missing _ _ _ Hp).
Qed.

Lemma BlogPost_query_get_None d i :
  BlogPost_query_get d i = None ↔ ∀ p, p ∈ blog_posts d → BlogPost.id p ≠ i.
Proof.
  unfold BlogPost_query_get. split.
  - intros Hnone p Hin Hid. apply list_elem_of_In in Hin.
    apply (find_none _ _ Hnone) in Hin. by apply bool_decide_eq_false in Hin.
  - intros Hall. destruct (find _ _) as [p|] eqn:Hfind; [|done].
    apply find_some in Hfind as [Hin Hid]. apply bool_decide_eq_true in Hid.
    apply list_elem_of_In in Hin. by destruct (Hall p Hin).
Qed.

(** X8: for a post id below 2^63 (a larger one does not fit an SQLite
    integer, and the lookup on line 194 is not modelled there), the
    handler of the detail view never raises, whatever the session and the
    form: it renders the post found for the id, or no post when no stored
    post has that id; it never changes users, posts or the session, and
    without a validated comment form it changes nothing at all. *)
Theorem show_post_always_served (w : World) (post_id : nat)
    (form : option CommentForm) (today : Date) :
  (N.of_nat post_id < 2 ^ 63)%N →
  ∃ after,
    serve (show_post post_id form today) w
    = (Served (render_template
                 (post_html (BlogPost_query_get (db w) post_id)
                            (strftime today))), after)
    ∧ users (db after) = users (db w)
    ∧ blog_posts (db after) = blog_posts (db w)
    ∧ session_user_id after = session_user_id w
    ∧ (form = None → after = w)
    ∧ (BlogPost_query_get (db w) post_id = None
       ↔ ∀ p, p ∈ blog_posts (db w) → BlogPost.id p ≠ post_id).
Proof.
  intros _. destruct form as [form|].
  - destruct (session_user_id w ≫= load_user (db w)) as [u|] eqn:Hauth.
    + eexists. rewrite (show_post_authenticated _ _ _ _ _ Hauth).
      split_and!; try done. apply BlogPost_query_get_None.
    + eexists. rewrite (show_post_anonymous _ _ _ _ Hauth).
      split_and!; try done. apply BlogPost_query_get_None.
  - exists w. split_and!; [|done..|apply BlogPost_query_get_None].
    unfold show_post. unfold_monad. by destruct w.
Qed.

Lemma add_new_post_fresh w u form today :
  authenticated_as w u → User.id u = 1 →
  form_title form ∉ BlogPost.title <$> blog_posts (db w) →
  serve (add_new_post (Some form) today) w
  = (Served (redirect to_get_all_posts),
     mkWorld (mkDb (users (db w))
                   (blog_posts (db w)
                    ++ [BlogPost.mk (next_id (BlogPost.id <$> blog_posts (db w)))
                                    (Some (User.id u)) (form_title form)
                                    (form_subtitle form) (strftime today)
                                    (form_body form) (form_img_url form)])
                   (comments (db w)))
             (session_user_id w) (flashes w)).
Proof.
  intros Hauth Hadmin Hfresh. unfold add_new_post, serve.
  rewrite (login_required_authenticated _ _ _ Hauth).
  rewrite (admin_only_admin _ _ _ Hauth Hadmin).
  by rewrite (add_new_post_body_fresh _ _ _ _ Hauth Hfresh).
Qed.

(** X9: on the home page the stored posts are listed in the order they
    were created and nothing is changed; after a validated new-post
    submission by the admin with an unused title, the page lists the
    earlier posts followed by the new one.  Opening the new-post page
    without a form renders the empty form and changes nothing. *)
Theorem new_post_listed_last (w : World) (u : User.t) (form : CreatePostForm)
    (today : Date) :
  authenticated_as w u → User.id u = 1 →
  form_title form ∉ BlogPost.title <$> blog_posts (db w) →
  let after := (serve (add_new_post (Some form) today) w).2 in
  serve get_all_posts w
  = (Served (render_template (index_html (blog_posts (db w)))), w)
  ∧ (∃ p, serve get_all_posts after
          = (Served (render_template (index_html (blog_posts (db w) ++ [p]))),
             after)
          ∧ BlogPost.title p = form_title form
          ∧ BlogPost.id p ∉ BlogPost.id <$> blog_posts (db w))
  ∧ serve (add_new_post None today) w
    = (Served (render_template (make_post_html None false)), w).
Proof.
  intros Hauth Hadmin Hfresh after. subst after. split_and!.
  - unfold get_all_posts. unfold_monad. by destruct w.
  - rewrite (add_new_post_fresh _ _ _ _ Hauth Hadmin Hfresh). cbn [snd].
    eexists. split_and!.
    + unfold get_all_posts. unfold_monad. simpl. reflexivity.
    + done.
    + simpl. apply next_id_fresh.
  - unfold add_new_post, serve.
    rewrite (login_required_authenticated _ _ _ Hauth).
    rewrite (admin_only_admin _ _ _ Hauth Hadmin).
    unfold add_new_post_body. unfold_monad. by destruct w.
Qed.

(** *** What holds after any sequence of requests *)

(** X10: in a reachable world user ids, emails, post ids, post titles
    and comment ids are unique in their tables; so every stored user is
    found by its id and by its email, and every stored post by its id. *)
Theorem stored_rows_found_by_key (w : World) :
  reachable w →
  unique_keys (db w)
  ∧ (∀ u, u ∈ users (db w) →
          User_query_get (db w) (User.id u) = Some u
          ∧ User_query_filter_by_email_first (db w) (User.email u) = Some u)
  ∧ (∀ p, p ∈ blog_posts (db w) →
          BlogPost_query_get (db w) (BlogPost.id p) = Some p).
Proof.
  intros Hreach.
  destruct (reachable_world_invariant _ Hreach)
    as (_ & Hkeys & _). split_and!; [done| |].
  - intros u Hu. by apply reachable_user_lookup.
  - intros p Hp. destruct Hkeys as (_ & _ & Hpids & _).
    by apply (find_unique BlogPost.id).
Qed.

(** X11: in a reachable world every stored post has the first registered
    user, whose id is 1, as its author. *)
Theorem posts_authored_by_first_user (w : World) :
  reachable w →
  Forall (λ p, ∃ first, head (users (db w)) = Some first
                        ∧ User.id first = 1
                        ∧ BlogPost.author_id p = Some (User.id first))
         (blog_posts (db w)).
Proof.
  intros Hreach.
  destruct (reachable_world_invariant _ Hreach) as (Hids & _ & Hposts & _).
  eapply Forall_impl; [exact Hposts|]. simpl.
  intros p [Hauthor (a & Ha & _)].
  destruct (users (db w)) as [|first l]; [by apply elem_of_nil in Ha|].
  exists first. simpl in Hids. injection Hids as Hfirst _.
  split_and!; [done|done|]. by rewrite Hfirst.
Qed.

(** X12: in a reachable world a session that carries a user id always
    resolves to a stored user with that id; the request is anonymous
    exactly when the session carries no id. *)
Theorem session_never_dangles (w : World) :
  reachable w →
  (∀ i, session_user_id w = Some i →
        ∃ u, authenticated_as w u ∧ User.id u = i ∧ u ∈ users (db w))
  ∧ (anonymous w ↔ session_user_id w = None).
Proof.
  intros Hreach.
  destruct (reachable_world_invariant _ Hreach) as (_ & _ & _ & _ & _ & Hs).
  split.
  - intros i Hi. destruct (Hs i Hi) as (u & Hu & Hid). exists u.
    split_and!; [done..|]. by apply authenticated_as_stored.
  - split.
    + intros Hanon. destruct (session_user_id w) as [i|] eqn:Hi; [|done].
      destruct (Hs i Hi) as (u & Hu & _).
      unfold anonymous in Hanon. unfold authenticated_as in Hu. congruence.
    + unfold anonymous. by intros ->.
Qed.

Lemma transition_users w w' :
  transition w w' →
  users (db w') = users (db w) ∨ ∃ u, users (db w') = (users (db w) ++ [u])%list.
Proof. destruct 1; simpl; eauto. Qed.

(** X13: no sequence of requests removes or alters a stored user: the
    users table after the requests is the table before, followed by at
    most one new user per request. *)
Theorem users_only_appended (rs : list Request) (w : World) :
  ∃ newcomers,
    users (db (run rs w)) = (users (db w) ++ newcomers)%list
    ∧ (length newcomers ≤ length rs)%nat.
Proof.
  induction rs as [|r rs IH] using rev_ind.
  - exists []. by rewrite app_nil_r.
  - destruct IH as (newcomers & Husers & Hlen). rewrite run_snoc.
    destruct (transition_users _ _ (step_transition r (run rs w)))
      as [Hsame|[u Hmore]].
    + exists newcomers. rewrite Hsame, length_app. split; [done|lia].
    + exists (newcomers ++ [u])%list.
      rewrite Hmore, Husers, !length_app, app_assoc. simpl. split; [done|lia].
Qed.

Lemma transition_posts w w' :
  transition w w' →
  (∀ u, authenticated_as w u → User.id u ≠ 1) →
  blog_posts (db w') = blog_posts (db w).
Proof.
  destruct 1 as [| | |u p Hauth Hadmin|u p Hauth Hadmin]; simpl; try done;
    intros Hnone; by destruct (Hnone u).
Qed.

(** X14: whatever the request, the posts table is unchanged unless the
    request comes from the session of the user with id 1. *)
Theorem posts_changed_only_by_admin (r : Request) (w : World) :
  (∀ u, authenticated_as w u → User.id u ≠ 1) →
  blog_posts (db (serve (route r) w).2) = blog_posts (db w).
Proof. apply transition_posts, step_transition. Qed.

Lemma transition_anonymous w w' :
  transition w w' → anonymous w →
  blog_posts (db w') = blog_posts (db w) ∧ comments (db w') = comments (db w).
Proof.
  unfold anonymous.
  destruct 1 as [| |u c Hauth|u p Hauth|u p Hauth]; simpl; try done;
    unfold authenticated_as in Hauth; congruence.
Qed.

(** X15: whatever the request, an anonymous session changes neither the
    posts nor the comments: a comment is stored only for a logged-in
    user. *)
Theorem anonymous_stores_no_content (r : Request) (w : World) :
  anonymous w →
  blog_posts (db (serve (route r) w).2) = blog_posts (db w)
  ∧ comments (db (serve (route r) w).2) = comments (db w).
Proof. apply transition_anonymous, step_transition. Qed.

Lemma transition_comment_kept w w' c :
  transition w w' → c ∈ comments (db w) →
  ∃ c', c' ∈ comments (db w')
        ∧ Comment.id c' = Comment.id c
        ∧ Comment.author_id c' = Comment.author_id c
        ∧ Comment.text c' = Comment.text c
        ∧ (Comment.post_id c' = Comment.post_id c ∨ Comment.post_id c' = None).
Proof.
  intros Hstep Hc.
  destruct Hstep as [| |u c0|u p|u p]; simpl;
    try (exists c; split_and!; [done..|by left]).
  - exists c. split_and!; [|done..|by left]. apply elem_of_app. by left.
  - exists (orphan (BlogPost.id p) c).
    split; [by apply list_elem_of_fmap_2|].
    unfold orphan. case_bool_decide; simpl; split_and!; auto.
Qed.

(** X16: no request deletes or rewrites a comment: after any request each
    stored comment is still there with its id, author and text; only its
    parent link may have been cleared. *)
Theorem comments_never_lost (r : Request) (w : World) (c : Comment.t) :
  c ∈ comments (db w) →
  ∃ c', c' ∈ comments (db (serve (route r) w).2)
        ∧ Comment.id c' = Comment.id c
        ∧ Comment.author_id c' = Comment.author_id c
        ∧ Comment.text c' = Comment.text c
        ∧ (Comment.post_id c' = Comment.post_id c ∨ Comment.post_id c' = None).
Proof. apply transition_comment_kept, step_transition. Qed.

(** X17: in a reachable world every stored name is title-cased already:
    title-casing it again gives the same name, of the same length. *)
Theorem stored_names_title_cased (w : World) :
  reachable w →
  Forall (λ u, title (User.name u) = User.name u
               ∧ String.length (title (User.name u))
                 = String.length (User.name u)) (users (db w)).
Proof.
  intros Hreach.
  destruct (reachable_world_invariant _ Hreach) as (_ & _ & _ & Hnames & _).
  eapply Forall_impl; [exact Hnames|]. simpl. intros u Hu.
  split; [done|]. apply title_from_length.
Qed.

(** X18: in a reachable world the parent link of every comment is empty
    or the id of a stored post: deleting a post clears the links to it,
    so no comment points to a missing post. *)
Theorem comments_point_to_stored_posts (w : World) :
  reachable w →
  Forall (λ c, Comment.post_id c = None
               ∨ ∃ p, p ∈ blog_posts (db w)
                      ∧ Comment.post_id c = Some (BlogPost.id p)
                      ∧ BlogPost_query_get (db w) (BlogPost.id p) = Some p)
         (comments (db w)).
Proof.
  intros Hreach.
  destruct (reachable_world_invariant _ Hreach)
    as (_ & (_ & _ & Hpids & _) & _ & _ & Hlinks & _).
  eapply Forall_impl; [exact Hlinks|]. simpl. intros c Hc.
  destruct (Comment.post_id c) as [i|]; [|by left]. right.
  destruct (Hc i eq_refl) as (p & Hp & <-). exists p.
  split_and!; [done..|]. by apply (find_unique BlogPost.id).
Qed.

End Transitions.


(** ** Further properties on concrete runs *)

Lemma initial_reachable : @reachable toy_werkzeug initial_world.
Proof. by exists []. Qed.

Lemma registered_reachable : @reachable toy_werkzeug registered.
Proof. by eexists. Qed.

Lemma commented_reachable : @reachable toy_werkzeug commented.
Proof. by eexists. Qed.

Lemma login_binds_session_witness :
  serve (@login toy_werkzeug
                (Some (mkLoginForm "alice@example.com" "wonderland")))
        logged_out
  = (Served (redirect to_get_all_posts), mkWorld (db logged_out) (Some 1) [])
  ∧ authenticated_as (mkWorld (db logged_out) (Some 1) []) alice_user.
Proof.
  apply (@login_binds_session toy_werkzeug logged_out
           (mkLoginForm "alice@example.com" "wonderland") alice_user
           logged_out_reachable); reflexivity.
Defined.

Lemma anonymous_admin_routes_unauthorized_witness :
  serve (delete_post 1) logged_out
  = (Failed 401 (HTTPException 401), logged_out).
Proof.
  apply (anonymous_admin_routes_unauthorized logged_out eq_refl).
  - exact None.
  - exact nov3.
Defined.

Lemma register_logs_in_witness :
  ∃ new_user,
    serve (@register toy_werkzeug (Some bob) "s2") logged_out
    = (Served (redirect to_get_all_posts),
       mkWorld (mkDb (users (db logged_out) ++ [new_user]) [] [])
               (Some (User.id new_user)) [])
    ∧ User.email new_user = "bob@example.com"
    ∧ User.password new_user = "pbkdf2:sha256$s2$builder".
Proof.
  destruct (@register_logs_in toy_werkzeug logged_out bob "s2"
              logged_out_reachable) as (new_user & Hserved & Hemail & Hpw & _).
  - by apply (bool_decide_unpack _).
  - exists new_user. split; [exact Hserved|]. split; [exact Hemail|exact Hpw].
Defined.

Lemma register_logout_login_witness :
  serve (@login toy_werkzeug
                (Some (mkLoginForm "alice@example.com" "wonderland")))
        logged_out
  = (Served (redirect to_get_all_posts), registered).
Proof.
  apply (@register_logout_login toy_werkzeug initial_world alice "s1"
           initial_reachable).
  - by apply (bool_decide_unpack _).
  - reflexivity.
Defined.

Lemma delete_post_removes_witness :
  BlogPost_query_get (db (serve (delete_post 1) one_post).2) 1 = None
  ∧ serve (delete_post 1) (serve (delete_post 1) one_post).2
    = (Failed 500 UnmappedInstanceError, (serve (delete_post 1) one_post).2).
Proof.
  destruct (delete_post_removes one_post alice_user 1 hello_post
              eq_refl eq_refl eq_refl) as (_ & Hgone & _ & _ & _ & _ & Hagain).
  split; [exact Hgone | exact Hagain].
Defined.

Lemma edit_post_page_witness :
  serve (edit_post 1 None) one_post
  = (Served (render_template
               (make_post_html
                  (Some (mkCreatePostForm "Hello" "first post"
                                          "http://img/1.png" "<p>hi</p>"))
                  true)), one_post)
  ∧ serve (edit_post 7 None) one_post = (Failed 500 AttributeError, one_post).
Proof.
  split.
  - apply (proj1 (edit_post_page one_post alice_user 1 eq_refl eq_refl)
                 hello_post).
    reflexivity.
  - apply (proj2 (edit_post_page one_post alice_user 7 eq_refl eq_refl)).
    reflexivity.
Defined.

Lemma show_post_always_served_witness :
  ∃ after,
    serve (show_post 3 None nov3) logged_out
    = (Served (render_template (post_html None "November 03, 2026")), after)
    ∧ after = logged_out.
Proof.
  destruct (show_post_always_served logged_out 3 None nov3 eq_refl)
    as (after & Hserved & _ & _ & _ & Hsame & _).
  exists after. split; [exact Hserved | exact (Hsame eq_refl)].
Defined.

Lemma new_post_listed_last_witness :
  ∃ p, serve get_all_posts one_post
       = (Served (render_template (index_html [p])), one_post)
       ∧ BlogPost.title p = "Hello".
Proof.
  destruct (new_post_listed_last registered alice_user hello nov3
              eq_refl eq_refl) as (_ & (p & Hlist & Htitle & _) & _).
  - by apply (bool_decide_unpack _).
  - exists p. split; [exact Hlist | exact Htitle].
Defined.

Lemma stored_rows_found_by_key_witness :
  User_query_get (db two_users) 2 = Some bob_user
  ∧ User_query_filter_by_email_first (db two_users) "bob@example.com"
    = Some bob_user.
Proof.
  destruct (@stored_rows_found_by_key toy_werkzeug two_users
              two_users_reachable) as (_ & Husers & _).
  apply (Husers bob_user). right. left.
Defined.

Lemma posts_authored_by_first_user_witness :
  Forall (λ p, ∃ first, head (users (db one_post)) = Some first
                        ∧ User.id first = 1
                        ∧ BlogPost.author_id p = Some (User.id first))
         (blog_posts (db one_post)).
Proof.
  apply (@posts_authored_by_first_user toy_werkzeug one_post
           one_post_reachable).
Defined.

Lemma session_never_dangles_witness :
  ∃ u, authenticated_as two_users u ∧ User.id u = 2 ∧ u ∈ users (db two_users).
Proof.
  apply (@session_never_dangles toy_werkzeug two_users two_users_reachable).
  reflexivity.
Defined.

Lemma posts_changed_only_by_admin_witness :
  blog_posts (db (serve (@route toy_werkzeug (AddNewPost (Some hello) nov3))
                        two_users).2)
  = blog_posts (db two_users).
Proof.
  apply (@posts_changed_only_by_admin toy_werkzeug).
  intros u Hu. vm_compute in Hu. injection Hu as <-. discriminate.
Defined.

Lemma anonymous_stores_no_content_witness :
  comments (db (serve (@route toy_werkzeug
                              (ShowPost 1 (Some (mkCommentForm "nice")) nov3))
                      logged_out).2)
  = comments (db logged_out).
Proof.
  apply (@anonymous_stores_no_content toy_werkzeug
           (ShowPost 1 (Some (mkCommentForm "nice")) nov3) logged_out eq_refl).
Defined.

Lemma comments_never_lost_witness :
  ∃ c', c' ∈ comments (db (serve (@route toy_werkzeug (DeletePost 1))
                                 commented).2)
        ∧ Comment.id c' = 1
        ∧ Comment.author_id c' = Some 1
        ∧ Comment.text c' = "nice"
        ∧ (Comment.post_id c' = Some 1 ∨ Comment.post_id c' = None).
Proof.
  apply (@comments_never_lost toy_werkzeug (DeletePost 1) commented
           nice_comment).
  left.
Defined.

Lemma stored_names_title_cased_witness :
  Forall (λ u, title (User.name u) = User.name u
               ∧ String.length (title (User.name u))
                 = String.length (User.name u)) (users (db two_users)).
Proof.
  apply (@stored_names_title_cased toy_werkzeug two_users two_users_reachable).
Defined.

Lemma comments_point_to_stored_posts_witness :
  Forall (λ c, Comment.post_id c = None
               ∨ ∃ p, p ∈ blog_posts (db commented)
                      ∧ Comment.post_id c = Some (BlogPost.id p)
                      ∧ BlogPost_query_get (db commented) (BlogPost.id p)
                        = Some p)
         (comments (db commented)).
Proof.
  apply (@comments_point_to_stored_posts toy_werkzeug commented
           commented_reachable).
Defined.

